(** * markdown-parser-react: the [parse] function of [src/parser.tsx]

    A shallow embedding of the line scanner and of its inline formatter.
    A JavaScript string is a [string] of code units; the model is exact for
    ASCII text (the whitespace class is the ASCII part of the JavaScript one,
    and [.] excludes the ASCII line terminators).  React elements are a small
    tree type; the mutable locals of [parse] are a record threaded through
    the [forEach] callback. *)

From Stdlib Require Import String Ascii List Bool Arith ZArith Lia.
From Stdlib Require Import DecimalString.
Import ListNotations.
Set Warnings "-comment-terminator-in-string".
Open Scope string_scope.

(* ------------------------------------------------------------------ *)
(** ** Strings *)

Module JsString.

(** [\s] and the characters removed by [trim], restricted to ASCII. *)
Definition is_space (c : ascii) : bool :=
  let n := nat_of_ascii c in
  ((Nat.leb 9 n) && (Nat.leb n 13)) || (Nat.eqb n 32).

(** The characters [.] does not match. *)
Definition is_newline (c : ascii) : bool :=
  let n := nat_of_ascii c in (Nat.eqb n 10) || (Nat.eqb n 13).

Definition is_digit (c : ascii) : bool :=
  let n := nat_of_ascii c in (Nat.leb 48 n) && (Nat.leb n 57).

Definition is_empty (s : string) : bool :=
  match s with "" => true | _ => false end.

Fixpoint trimStart (s : string) : string :=
  match s with
  | String c r => if is_space c then trimStart r else s
  | "" => ""
  end.

Fixpoint trimEnd (s : string) : string :=
  match s with
  | String c r =>
      let r' := trimEnd r in
      if is_space c && is_empty r' then "" else String c r'
  | "" => ""
  end.

Definition trim (s : string) : string := trimEnd (trimStart s).

Fixpoint startsWith (s p : string) {struct p} : bool :=
  match p, s with
  | "", _ => true
  | String a p', String b s' => Ascii.eqb a b && startsWith s' p'
  | String _ _, "" => false
  end.

Fixpoint includes (s p : string) : bool :=
  startsWith s p || match s with String _ r => includes r p | "" => false end.

(** [s.slice(1)] *)
Definition slice1 (s : string) : string :=
  match s with String _ r => r | "" => "" end.

(** [s.split(c)] for a one-character separator. *)
Fixpoint split_char (sep : ascii) (s : string) : list string :=
  match s with
  | "" => [""]
  | String c r =>
      if Ascii.eqb c sep then "" :: split_char sep r
      else match split_char sep r with
           | x :: xs => String c x :: xs
           | [] => [String c ""]
           end
  end.

(** [a.slice(1, -1)] on an array. *)
Definition slice_1_m1 {A} (l : list A) : list A := removelast (tl l).

(** [a.join(sep)] *)
Fixpoint join (sep : string) (l : list string) : string :=
  match l with
  | [] => ""
  | [x] => x
  | x :: xs => x ++ sep ++ join sep xs
  end.

(** Template-literal conversion of a non-negative integer. *)
Definition of_nat (n : nat) : string :=
  NilEmpty.string_of_uint (Nat.to_uint n).

End JsString.
Import JsString.

(* ------------------------------------------------------------------ *)
(** ** Regular expressions

    A backtracking matcher in continuation style, with the priorities of the
    JavaScript one: alternatives left to right, greedy quantifiers try one
    more iteration first, lazy ones try the rest of the pattern first, and an
    iteration past the minimum that consumes nothing is rejected.  Captures
    inside a quantified group are not reset between iterations; the program
    reads such captures only for groups under [?]. *)

Module Regex.

Inductive regex :=
| Eps                                   (* the empty pattern *)
| Bol                                   (* ^ *)
| Eol                                   (* $ *)
| Chr (c : ascii)                       (* a literal character *)
| Cls (p : ascii -> bool)               (* a character class *)
| Seq (r1 r2 : regex)
| Alt (r1 r2 : regex)
| Rep (greedy : bool) (min : nat) (max : option nat) (r : regex)
| Grp (n : nat) (r : regex).            (* capturing group number n *)

(** Position (code units consumed so far) and remaining input. *)
Definition mstate := (nat * string)%type.
Definition caps := list (nat * string).
Definition result := option (nat * caps).
Definition cont := mstate -> caps -> result.

Definition or_else (a : result) (b : unit -> result) : result :=
  match a with Some x => Some x | None => b tt end.

Definition dec_max (m : option nat) : option nat :=
  match m with Some n => Some (pred n) | None => None end.

Fixpoint rep_loop (fuel : nat) (mr : cont -> cont) (greedy : bool)
    (min : nat) (max : option nat) (k : cont) (st : mstate) (c : caps)
    : result :=
  match fuel with
  | 0 => None
  | S fuel' =>
      match max with
      | Some 0 => k st c
      | _ =>
          let iter (_ : unit) :=
            mr (fun st' c' =>
                  if (Nat.eqb min 0) && (Nat.eqb (fst st') (fst st)) then None
                  else rep_loop fuel' mr greedy (pred min) (dec_max max) k st' c')
               st c in
          if Nat.ltb 0 min then iter tt
          else if greedy then or_else (iter tt) (fun _ => k st c)
          else or_else (k st c) iter
      end
  end.

Fixpoint mtch (r : regex) (k : cont) (st : mstate) (c : caps) {struct r}
    : result :=
  match r with
  | Eps => k st c
  | Bol => if Nat.eqb (fst st) 0 then k st c else None
  | Eol => match snd st with "" => k st c | String _ _ => None end
  | Chr a =>
      match snd st with
      | String b s' => if Ascii.eqb a b then k (S (fst st), s') c else None
      | "" => None
      end
  | Cls p =>
      match snd st with
      | String b s' => if p b then k (S (fst st), s') c else None
      | "" => None
      end
  | Seq r1 r2 => mtch r1 (mtch r2 k) st c
  | Alt r1 r2 => or_else (mtch r1 k st c) (fun _ => mtch r2 k st c)
  | Rep g mn mx r1 =>
      rep_loop (S (mn + String.length (snd st))) (mtch r1) g mn mx k st c
  | Grp n r1 =>
      mtch r1
        (fun st' c' =>
           k st' ((n, substring 0 (fst st' - fst st) (snd st)) :: c'))
        st c
  end.

Definition accept : cont := fun st c => Some (fst st, c).

(** A match: start, end, captures. *)
Record rmatch := { m_start : nat; m_end : nat; m_caps : caps }.

(** The first position from which the pattern matches. *)
Fixpoint exec_from (r : regex) (pos : nat) (s : string) : option rmatch :=
  match mtch r accept (pos, s) [] with
  | Some (e, c) => Some {| m_start := pos; m_end := e; m_caps := c |}
  | None =>
      match s with
      | "" => None
      | String _ s' => exec_from r (S pos) s'
      end
  end.

Definition exec (r : regex) (s : string) : option rmatch := exec_from r 0 s.

Definition test (r : regex) (s : string) : bool :=
  match exec r s with Some _ => true | None => false end.

(** [m[n]]: [None] is [undefined]. *)
Fixpoint group (n : nat) (c : caps) : option string :=
  match c with
  | [] => None
  | (i, v) :: c' => if Nat.eqb i n then Some v else group n c'
  end.

(** [m[0].length] *)
Definition match_length (m : rmatch) : nat := m_end m - m_start m.

(** [s.replace(r, f)] where [r] has the [g] flag; [skip] counts the
    characters of the input still covered by the previous match. *)
Fixpoint replace_go (r : regex) (f : caps -> string) (pos : nat)
    (s : string) (skip : nat) : string :=
  match s with
  | "" =>
      match skip, mtch r accept (pos, s) [] with
      | 0, Some (_, c) => f c
      | _, _ => ""
      end
  | String a s' =>
      match skip with
      | S skip' => replace_go r f (S pos) s' skip'
      | 0 =>
          match mtch r accept (pos, s) [] with
          | Some (e, c) =>
              if Nat.eqb e pos then f c ++ String a (replace_go r f (S pos) s' 0)
              else f c ++ replace_go r f (S pos) s' (e - pos - 1)
          | None => String a (replace_go r f (S pos) s' 0)
          end
      end
  end.

Definition replace_all (r : regex) (f : caps -> string) (s : string) : string :=
  replace_go r f 0 s 0.

Fixpoint skipn_string (n : nat) (s : string) : string :=
  match n, s with
  | S n', String _ s' => skipn_string n' s'
  | _, _ => s
  end.

(** [s.replace(r, f)] without the [g] flag: the first match only. *)
Definition replace_first (r : regex) (f : caps -> string) (s : string) : string :=
  match exec r s with
  | Some m =>
      substring 0 (m_start m) s ++ f (m_caps m) ++ skipn_string (m_end m) s
  | None => s
  end.

(** [s.split(r)] for a pattern that cannot match the empty string. *)
Fixpoint split_go (r : regex) (pos : nat) (s : string) (skip : nat)
    (cur : string -> string) : list string :=
  match s with
  | "" => [cur ""]
  | String a s' =>
      match skip with
      | S skip' => split_go r (S pos) s' skip' cur
      | 0 =>
          match mtch r accept (pos, s) [] with
          | Some (e, _) =>
              if Nat.eqb e pos then split_go r (S pos) s' 0 (fun t => cur (String a t))
              else cur "" :: split_go r (S pos) s' (e - pos - 1) (fun t => t)
          | None => split_go r (S pos) s' 0 (fun t => cur (String a t))
          end
      end
  end.

Definition split (r : regex) (s : string) : list string :=
  split_go r 0 s 0 (fun t => t).

(** Pattern syntax. *)
Fixpoint lit (s : string) : regex :=
  match s with
  | "" => Eps
  | String c "" => Chr c
  | String c s' => Seq (Chr c) (lit s')
  end.

Fixpoint cat (l : list regex) : regex :=
  match l with
  | [] => Eps
  | [r] => r
  | r :: l' => Seq r (cat l')
  end.

Definition star r := Rep true 0 None r.
Definition plus r := Rep true 1 None r.
Definition plus_lazy r := Rep false 1 None r.
Definition opt r := Rep true 0 (Some 1) r.
Definition dot := Cls (fun c => negb (is_newline c)).
Definition ws := Cls is_space.
Definition non_ws := Cls (fun c => negb (is_space c)).
Definition digit := Cls is_digit.
Fixpoint mem (c : ascii) (s : string) : bool :=
  match s with
  | "" => false
  | String a s' => Ascii.eqb a c || mem c s'
  end.
Definition one_of (s : string) := Cls (fun c => mem c s).
Definition none_of (s : string) := Cls (fun c => negb (mem c s)).

End Regex.
Import Regex.


(* ------------------------------------------------------------------ *)
(** ** React elements and options *)

Definition css := list (string * string).

(** A prop value; [VUndef] is [undefined]. *)
Inductive pval :=
| VUndef
| VStr (s : string)
| VBool (b : bool)
| VStyle (o : css)
| VHtml (html : string).              (* [{ __html: html }] *)

Definition props := list (string * pval).

(** A React node: text, a value that renders nothing, an array of nodes, or
    an element with its key, props and children. *)
#[warnings="-register-all"]
Inductive node :=
| NText (s : string)
| NUndef
| NArr (l : list node)
| NElem (tag : string) (key : option string) (p : props)
    (children : list node).

Inductive ElementType :=
| headings | paragraphs | lists | blockquotes
| codeBlocks | tables | links | images.

Inductive LinkTarget := T_blank | T_self | T_parent | T_top.

Definition LinkTarget_str (t : LinkTarget) : string :=
  match t with
  | T_blank => "_blank"
  | T_self => "_self"
  | T_parent => "_parent"
  | T_top => "_top"
  end.

Definition is_blank (t : LinkTarget) : bool :=
  match t with T_blank => true | _ => false end.

(** The options after destructuring with their defaults.  An absent entry
    of [customClasses] is [None], an absent entry of [customStyles] is the
    empty object. *)
Record ParseOptions := {
  langPrefix : string;
  customClasses : ElementType -> option string;
  customStyles : ElementType -> css;
  linkTarget : LinkTarget;
  sanitizeHtml : bool;
  maxNestingLevel : Z
}.

Definition default_options : ParseOptions := {|
  langPrefix := "language-";
  customClasses := fun _ => None;
  customStyles := fun _ => [];
  linkTarget := T_blank;
  sanitizeHtml := true;
  maxNestingLevel := 6
|}.

(** Objects: insertion-ordered keys, assignment keeps the position of an
    existing key. *)
Fixpoint obj_set {V} (k : string) (v : V) (o : list (string * V))
    : list (string * V) :=
  match o with
  | [] => [(k, v)]
  | (k', v') :: o' =>
      if String.eqb k' k then (k, v) :: o' else (k', v') :: obj_set k v o'
  end.

Definition obj_spread {V} (a b : list (string * V)) : list (string * V) :=
  fold_left (fun o kv => obj_set (fst kv) (snd kv) o) b a.

Fixpoint obj_get {V} (k : string) (o : list (string * V)) : option V :=
  match o with
  | [] => None
  | (k', v) :: o' => if String.eqb k' k then Some v else obj_get k o'
  end.

Definition truthy_str (s : option string) : option string :=
  match s with
  | Some v => if is_empty v then None else Some v
  | None => None
  end.

Definition str_or_undef (s : option string) : pval :=
  match truthy_str s with Some v => VStr v | None => VUndef end.

Definition quote : string := String "034"%char "".

Section Parser.

Variable opts : ParseOptions.

(** [getElementProperties(elementType, additionalProps)] *)
Definition getElementProperties (elementType : ElementType)
    (additionalProps : props) : props :=
  let add_style :=
    match obj_get "style" additionalProps with
    | Some (VStyle o) => o
    | _ => []
    end in
  let add_class :=
    match obj_get "className" additionalProps with
    | Some (VStr s) => Some s
    | _ => None
    end in
  let style := obj_spread (customStyles opts elementType) add_style in
  let className :=
    match truthy_str (customClasses opts elementType) with
    | Some cc =>
        Some (cc ++ match truthy_str add_class with
                    | Some ac => " " ++ ac
                    | None => ""
                    end)
    | None => add_class
    end in
  obj_set "className" (str_or_undef className)
    (obj_set "style" (match style with [] => VUndef | _ => VStyle style end)
       additionalProps).

(** Template-literal conversion of a prop value. *)
Definition pval_str (v : pval) : string :=
  match v with
  | VUndef => "undefined"
  | VStr s => s
  | VBool true => "true"
  | VBool false => "false"
  | VStyle _ => "[object Object]"
  | VHtml _ => "[object Object]"
  end.

Definition is_defined (kv : string * pval) : bool :=
  match snd kv with VUndef => false | _ => true end.

(** The props of the anchor built by the link rule. *)
Definition link_props (url : string) (title : option string) : props :=
  getElementProperties links
    ([("href", VStr url)]
       ++ match truthy_str title with
          | Some t => [("title", VStr t)]
          | None => []
          end
       ++ [("target", VStr (LinkTarget_str (linkTarget opts)));
           ("rel", if is_blank (linkTarget opts)
                   then VStr "noopener noreferrer" else VUndef)])%list.

Definition link_attributes (url : string) (title : option string)
    : list (string * pval) :=
  filter is_defined (link_props url title).

Definition link_replace (text url : string) (title : option string) : string :=
  let attributes :=
    join " " (map (fun kv => fst kv ++ "=" ++ quote ++ pval_str (snd kv) ++ quote)
                  (link_attributes url title)) in
  "<a " ++ attributes ++ ">" ++ text ++ "</a>".

Definition grp (n : nat) (c : caps) : string :=
  match group n c with Some s => s | None => "" end.

(** [open(.+?)close] *)
Definition delimited (o cl : string) : regex :=
  cat [lit o; Grp 1 (plus_lazy dot); lit cl].

Definition wrap (o cl : string) (c : caps) : string := o ++ grp 1 c ++ cl.

(** The pattern "/`([^`]+)`/". *)
Definition inline_code_re : regex :=
  cat [Chr "`"; Grp 1 (plus (none_of "`")); Chr "`"].

(** The pattern "/\[([^\]]+)\]\(([^)Q'\s]+)(?:\s+Q([^Q]+)Q)?\)/", Q standing for the double quote. *)
Definition link_re : regex :=
  cat [Chr "["; Grp 1 (plus (none_of "]")); Chr "]"; Chr "(";
       Grp 2 (plus (Cls (fun c => negb (mem c (")" ++ quote ++ "'")
                                          || is_space c))));
       opt (cat [plus ws; lit quote; Grp 3 (plus (none_of quote)); lit quote]);
       Chr ")"].

(** The ordered substitution rules of [processInlineFormatting]. *)
Definition replacements : list (regex * (caps -> string)) :=
  [ (delimited "$" "$",
     wrap ("<span class=" ++ quote ++ "math-inline" ++ quote ++ ">") "</span>");
    (delimited "~~" "~~", wrap "<del>" "</del>");
    (delimited "^" "^", wrap "<sup>" "</sup>");
    (delimited "~" "~", wrap "<sub>" "</sub>");
    (delimited "==" "==", wrap "<mark>" "</mark>");
    (delimited "***" "***", wrap "<strong><em>" "</em></strong>");
    (delimited "___" "___", wrap "<strong><em>" "</em></strong>");
    (delimited "**" "**", wrap "<strong>" "</strong>");
    (delimited "__" "__", wrap "<strong>" "</strong>");
    (delimited "*" "*", wrap "<em>" "</em>");
    (delimited "_" "_", wrap "<em>" "</em>");
    (inline_code_re, wrap "<code>" "</code>");
    (link_re, fun c => link_replace (grp 1 c) (grp 2 c) (group 3 c)) ].

Definition processInlineFormatting (text : string) : string :=
  if is_empty text then ""
  else fold_left (fun processed rr => replace_all (fst rr) (snd rr) processed)
                 replacements text.

(** *** The patterns of the block rules *)

(** The pattern "/\r\n|\n/". *)
Definition newline_re : regex :=
  Alt (Seq (Chr "013") (Chr "010")) (Chr "010").

(** The pattern "/^(\s*)-\s\[(x| )\]/". *)
Definition task_re : regex :=
  cat [Bol; Grp 1 (star ws); Chr "-"; ws; Chr "[";
       Grp 2 (Alt (Chr "x") (Chr " ")); Chr "]"].

(** The pattern "/^(\s*)-\s\[(x| )\]\s*/". *)
Definition task_strip_re : regex :=
  cat [Bol; Grp 1 (star ws); Chr "-"; ws; Chr "[";
       Grp 2 (Alt (Chr "x") (Chr " ")); Chr "]"; star ws].

(** The pattern "/^\s*/". *)
Definition indent_re : regex := cat [Bol; star ws].

(** The pattern "/^#{1,6}\s/". *)
Definition heading_re : regex :=
  cat [Bol; Rep true 1 (Some 6) (Chr "#"); ws].

(** The pattern "/^#{1,6}/". *)
Definition heading_marks_re : regex :=
  cat [Bol; Rep true 1 (Some 6) (Chr "#")].

(** The pattern "/\{#([^}]+)\}/". *)
Definition heading_id_re : regex :=
  cat [Chr "{"; Chr "#"; Grp 1 (plus (none_of "}")); Chr "}"].

(** The pattern "/^```(\S+)?(\s+\{.*\})?$/". *)
Definition fence_re : regex :=
  cat [Bol; lit "```"; opt (Grp 1 (plus non_ws));
       opt (Grp 2 (cat [plus ws; Chr "{"; star dot; Chr "}"])); Eol].

(** The pattern "/^```(\S+)?/". *)
Definition fence_lang_re : regex :=
  cat [Bol; lit "```"; opt (Grp 1 (plus non_ws))].

(** The pattern "/^>\s/". *)
Definition quote_re : regex := cat [Bol; Chr ">"; ws].

(** The pattern "/^>\s?(.+?)(?:\s+--\s+(.+))?$/". *)
Definition citation_re : regex :=
  cat [Bol; Chr ">"; opt ws; Grp 1 (plus_lazy dot);
       opt (cat [plus ws; lit "--"; plus ws; Grp 2 (plus dot)]); Eol].

(** The pattern "/^\|(.+\|)+/". *)
Definition table_re : regex :=
  cat [Bol; Chr "|"; plus (Grp 1 (cat [plus dot; Chr "|"]))].

(** The pattern "/^\|(\s*:?-+:?\s*\|)+/". *)
Definition align_re : regex :=
  cat [Bol; Chr "|";
       plus (Grp 1 (cat [star ws; opt (Chr ":"); plus (Chr "-");
                         opt (Chr ":"); star ws; Chr "|"]))].

(** The pattern "/!\[([^\]]*)\]\(([^)\s]+)(?:\s+Q([^Q]+)Q)?\)/", Q standing for the double quote. *)
Definition image_re : regex :=
  cat [Chr "!"; Chr "["; Grp 1 (star (none_of "]")); Chr "]"; Chr "(";
       Grp 2 (plus (Cls (fun c => negb (mem c ")" || is_space c))));
       opt (cat [plus ws; lit quote; Grp 3 (plus (none_of quote)); lit quote]);
       Chr ")"].

(** The pattern "/^(\s*)([-*+]|\d+\.)\s/". *)
Definition list_re : regex :=
  cat [Bol; Grp 1 (star ws);
       Grp 2 (Alt (one_of "-*+") (cat [plus digit; Chr "."])); ws].

(** The pattern "/^\s*\d+\./". *)
Definition ordered_re : regex := cat [Bol; star ws; plus digit; Chr "."].

(** *** The scanning state: the locals of [parse] the callback mutates *)

Record state := {
  html : list node;
  inCodeBlock : bool;
  codeBlockLang : option string;
  codeBlock : list string;
  nestingLevel : nat;
  skipLines : nat
}.

Definition init : state := {|
  html := []; inCodeBlock := false; codeBlockLang := None;
  codeBlock := []; nestingLevel := 0; skipLines := 0
|}.

Definition push (n : node) (st : state) : state :=
  {| html := html st ++ [n]; inCodeBlock := inCodeBlock st;
     codeBlockLang := codeBlockLang st; codeBlock := codeBlock st;
     nestingLevel := nestingLevel st; skipLines := skipLines st |}.

Definition set_skipLines (n : nat) (st : state) : state :=
  {| html := html st; inCodeBlock := inCodeBlock st;
     codeBlockLang := codeBlockLang st; codeBlock := codeBlock st;
     nestingLevel := nestingLevel st; skipLines := n |}.

Definition set_nestingLevel (n : nat) (st : state) : state :=
  {| html := html st; inCodeBlock := inCodeBlock st;
     codeBlockLang := codeBlockLang st; codeBlock := codeBlock st;
     nestingLevel := n; skipLines := skipLines st |}.

Definition set_code (b : bool) (lang : option string) (buf : list string)
    (st : state) : state :=
  {| html := html st; inCodeBlock := b; codeBlockLang := lang;
     codeBlock := buf; nestingLevel := nestingLevel st;
     skipLines := skipLines st |}.

Definition mapi {A B} (f : nat -> A -> B) (l : list A) : list B :=
  map (fun p => f (fst p) (snd p)) (combine (seq 0 (length l)) l).

Definition key (prefix : string) (index : nat) : option string :=
  Some (prefix ++ "-" ++ of_nat index).

Definition text_of (s : string) : node := NText (processInlineFormatting s).

(** *** The nodes *)

Definition error_node (index : nat) : node :=
  NElem "p" (key "error" index) [] [NText "Maximum nesting level reached"].

Fixpoint collect_definitions (l : list string) : list string :=
  match l with
  | x :: l' =>
      if startsWith (trim x) ":"
      then trim (slice1 (trim x)) :: collect_definitions l'
      else []
  | [] => []
  end.

Definition dl_node (index : nat) (term : string) (definitions : list string)
    : node :=
  NElem "dl" (key "dl" index) (getElementProperties lists [])
    [ NElem "dt" None [] [text_of term];
      NArr (mapi (fun defIndex def =>
                    NElem "dd" (Some (of_nat defIndex)) [] [text_of def])
                 definitions) ].

Definition margin_style (level : nat) : pval :=
  VStyle [("marginLeft", of_nat (level * 20) ++ "px")].

Definition indent_of (line : string) : nat :=
  match exec indent_re line with
  | Some m => match_length m
  | None => String.length ""
  end.

Definition task_node (index : nat) (line : string) (level : nat) : node :=
  let checked := includes line "[x]" in
  let text := replace_first task_strip_re (fun _ => "") line in
  NElem "div" (key "task" index)
    (obj_set "style" (margin_style level) (getElementProperties lists []))
    [ NElem "input" None
        [("type", VStr "checkbox"); ("checked", VBool checked);
         ("readOnly", VBool true)] [];
      NElem "span" None [] [text_of text] ].

Definition heading_level (line : string) : nat :=
  match exec heading_marks_re line with
  | Some m => match match_length m with 0 => 1 | n => n end
  | None => 1
  end.

Definition heading_node (index : nat) (line : string) : node :=
  let level := heading_level line in
  let text := replace_first heading_re (fun _ => "") line in
  let id :=
    match exec heading_id_re text with
    | Some m => match group 1 (m_caps m) with Some v => VStr v | None => VUndef end
    | None => VUndef
    end in
  let cleanText := trim (replace_first heading_id_re (fun _ => "") text) in
  NElem ("h" ++ of_nat level) (key "h" index)
    (obj_spread [("id", id)] (getElementProperties headings []))
    [text_of cleanText].

Definition pre_node (index : nat) (lang : option string) (buf : list string)
    : node :=
  let code := join (String "010" "") buf in
  NElem "pre" (key "code" index) (getElementProperties codeBlocks [])
    [ NElem "code" None
        [("className",
          match truthy_str lang with
          | Some l => VStr (langPrefix opts ++ l)
          | None => VUndef
          end)]
        [NText code] ].

Definition fence_lang (line : string) : option string :=
  match exec fence_lang_re (trim line) with
  | Some m => truthy_str (group 1 (m_caps m))
  | None => None
  end.

Definition blockquote_node (index : nat) (line : string) : node :=
  match exec citation_re line with
  | Some m =>
      NElem "blockquote" (key "quote" index)
        (getElementProperties blockquotes [])
        [ text_of (grp 1 (m_caps m));
          match truthy_str (group 2 (m_caps m)) with
          | Some citation =>
              NElem "footer" None [] [NText "— "; NText citation]
          | None => NUndef
          end ]
  | None =>
      NElem "blockquote" (key "quote" index)
        (getElementProperties blockquotes [])
        [ text_of (replace_first quote_re (fun _ => "") (trim line)) ]
  end.

Fixpoint endsWith_char (s : string) (c : ascii) : bool :=
  match s with
  | "" => false
  | String a "" => Ascii.eqb a c
  | String _ r => endsWith_char r c
  end.

Definition alignment_of (cell : string) : string :=
  if startsWith (trim cell) ":" && endsWith_char (trim cell) ":" then "center"
  else if endsWith_char (trim cell) ":" then "right"
  else "left".

Definition row_cells (row : string) : list string :=
  slice_1_m1 (split_char "|" row).

(** The body rows collected by the [while] loop. *)
Fixpoint collect_rows (l : list string) : list string :=
  match l with
  | x :: l' =>
      if test table_re (trim x) && negb (test align_re (trim x))
      then trim x :: collect_rows l'
      else []
  | [] => []
  end.

Definition cell_style (alignments : list string) (i : nat) : props :=
  [("style", VStyle [("textAlign", nth i alignments "left")])].

Definition table_node (index : nat) (alignments : list string)
    (tableRows : list string) : node :=
  let headerColumns := map trim (row_cells (hd "" tableRows)) in
  NElem "table" (key "table" index) (getElementProperties tables [])
    [ NElem "thead" None []
        [ NElem "tr" None []
            [ NArr (mapi (fun i col =>
                            NElem "th" (Some (of_nat i)) (cell_style alignments i)
                              [text_of col])
                         headerColumns) ] ];
      NElem "tbody" None []
        [ NArr (mapi (fun rowIndex row =>
                        NElem "tr" (Some (of_nat rowIndex)) []
                          [ NArr (mapi (fun cellIndex cell =>
                                          NElem "td" (Some (of_nat cellIndex))
                                            (cell_style alignments cellIndex)
                                            [text_of (trim cell)])
                                       (row_cells row)) ])
                     (tl tableRows)) ] ].

(** The table rule once the line is known to open a table: the alignment
    row, the body rows, and the node keyed by the advanced local [index]. *)
Definition build_table (lines : list string) (line : string) (index : nat)
    : node :=
  let has_align :=
    Nat.ltb (index + 1) (length lines)
    && test align_re (trim (nth (index + 1) lines "")) in
  let alignments :=
    if has_align
    then map alignment_of (row_cells (trim (nth (index + 1) lines "")))
    else [] in
  let index1 := if has_align then index + 1 else index in
  let body := collect_rows (skipn (index1 + 1) lines) in
  let index2 := index1 + length body in
  table_node index2 alignments (trim line :: body).

Definition image_node (index : nat) (m : rmatch) : node :=
  let alt := grp 1 (m_caps m) in
  let src := grp 2 (m_caps m) in
  let title := grp 3 (m_caps m) in
  NElem "img" (key "img" index)
    (obj_spread
       [("src", VStr src); ("alt", VStr alt);
        ("title", if is_empty title then VUndef else VStr title)]
       (getElementProperties images []))
    [].

Definition list_node (index : nat) (line : string) (level : nat) : node :=
  let isOrdered := test ordered_re line in
  let text := replace_first list_re (fun _ => "") line in
  NElem (if isOrdered then "ol" else "ul") (key "list" index)
    (obj_set "style" (margin_style level) (getElementProperties lists []))
    [ NElem "li" None [] [text_of text] ].

Definition paragraph_node (index : nat) (processedText : string) : node :=
  NElem "p" (key "p" index) (getElementProperties paragraphs [])
    [ NElem "span" None [("dangerouslySetInnerHTML", VHtml processedText)] [] ].

(** *** The callback of [lines.forEach] *)

(** The condition of the definition-list rule. *)
Definition is_term (lines : list string) (line : string) (index : nat) : bool :=
  Nat.ltb index (length lines - 1)
  && (negb (is_empty (trim line))
      && negb (startsWith (trim line) ":")
      && startsWith (trim (nth (index + 1) lines "")) ":").

Definition step (lines : list string) (st : state) (line : string)
    (index : nat) : state :=
  match skipLines st with
  | S n => set_skipLines n st
  | 0 =>
  if Z.ltb (maxNestingLevel opts) (Z.of_nat (nestingLevel st)) then
    push (error_node index) st
  else if is_term lines line index then
    let definitions := collect_definitions (skipn (index + 1) lines) in
    push (dl_node index (trim line) definitions)
         (set_skipLines (length definitions) st)
  else if test task_re (trim line) then
    let level := Nat.div (indent_of line) 2 in
    push (task_node index line level) (set_nestingLevel level st)
  else if test heading_re (trim line) then
    push (heading_node index line) st
  else if test fence_re (trim line) then
    if negb (inCodeBlock st) then
      set_code true (fence_lang line) [] st
    else
      set_code false None []
        (push (pre_node index (codeBlockLang st) (codeBlock st)) st)
  else if inCodeBlock st then
    set_code true (codeBlockLang st) (codeBlock st ++ [line]) st
  else if test quote_re (trim line) then
    push (blockquote_node index line) st
  else if test table_re (trim line) then
    if Nat.ltb 0 index && test table_re (trim (nth (index - 1) lines "")) then st
    else if negb (test align_re (trim line)) then
      push (build_table lines line index) st
    else st
  else if test image_re (trim line) then
    match exec image_re (trim line) with
    | Some m => push (image_node index m) st
    | None => st
    end
  else if test list_re (trim line) then
    let level := Nat.div (indent_of line) 2 in
    push (list_node index line level) (set_nestingLevel level st)
  else
    let processedText := processInlineFormatting (trim line) in
    if negb (is_empty (trim processedText)) then
      push (paragraph_node index processedText) st
    else st
  end.

(** [a.forEach(f)], the state threaded through the calls. *)
Fixpoint forEach_from {A St} (f : St -> A -> nat -> St) (l : list A)
    (i : nat) (st : St) : St :=
  match l with
  | [] => st
  | x :: l' => forEach_from f l' (S i) (f st x i)
  end.

Definition parse_lines (lines : list string) : state :=
  forEach_from (step lines) lines 0 init.

Definition parse (markdown : string) : list node :=
  html (parse_lines (split newline_re (trim markdown))).

End Parser.

(** The state after the first [k] lines. *)
Definition run (opts : ParseOptions) (lines : list string) (k : nat) : state :=
  forEach_from (step opts lines) (firstn k lines) 0 init.

Definition with_maxNestingLevel (n : Z) (o : ParseOptions) : ParseOptions :=
  {| langPrefix := langPrefix o; customClasses := customClasses o;
     customStyles := customStyles o; linkTarget := linkTarget o;
     sanitizeHtml := sanitizeHtml o; maxNestingLevel := n |}.

Definition with_sanitizeHtml (b : bool) (o : ParseOptions) : ParseOptions :=
  {| langPrefix := langPrefix o; customClasses := customClasses o;
     customStyles := customStyles o; linkTarget := linkTarget o;
     sanitizeHtml := b; maxNestingLevel := maxNestingLevel o |}.

Definition with_linkTarget (t : LinkTarget) (o : ParseOptions) : ParseOptions :=
  {| langPrefix := langPrefix o; customClasses := customClasses o;
     customStyles := customStyles o; linkTarget := t;
     sanitizeHtml := sanitizeHtml o; maxNestingLevel := maxNestingLevel o |}.

Definition LF : string := String "010" "".

(** Observations on nodes. *)
Definition tag_of (n : node) : string :=
  match n with NElem t _ _ _ => t | _ => "" end.

Definition children_of (n : node) : list node :=
  match n with NElem _ _ _ c => c | _ => [] end.

Definition is_tag (t : string) (n : node) : bool := String.eqb (tag_of n) t.

Definition is_error (n : node) : bool :=
  match n with
  | NElem t _ _ [NText msg] =>
      String.eqb t "p" && String.eqb msg "Maximum nesting level reached"
  | _ => false
  end.

(** The [th] cells of a table node and its body rows. *)
Definition table_header_cells (n : node) : list node :=
  match children_of n with
  | thead :: _ =>
      match children_of thead with
      | tr :: _ => match children_of tr with NArr ths :: _ => ths | _ => [] end
      | _ => []
      end
  | _ => []
  end.

Definition table_body_rows (n : node) : list node :=
  match children_of n with
  | _ :: tbody :: _ =>
      match children_of tbody with NArr trs :: _ => trs | _ => [] end
  | _ => []
  end.

(** The paragraph text handed to [dangerouslySetInnerHTML]. *)
Definition inner_html (n : node) : option string :=
  match children_of n with
  | NElem _ _ [(_, VHtml h)] _ :: _ => Some h
  | _ => None
  end.

(* ------------------------------------------------------------------ *)
(** ** Properties *)

(** *** Patterns anchored at the start *)

Lemma exec_from_bol (r : regex) (s : string) :
  forall pos, exec_from (Seq Bol r) (S pos) s = None.
Proof.
  induction s as [|a s IH]; intros pos; simpl; [reflexivity | apply IH].
Qed.

Lemma exec_bol (r : regex) (s : string) :
  exec (Seq Bol r) s =
  match mtch r accept (0, s) [] with
  | Some (e, c) => Some {| m_start := 0; m_end := e; m_caps := c |}
  | None => None
  end.
Proof.
  unfold exec. destruct s as [|a s]; simpl.
  - destruct (mtch r accept (0, "") []) as [[e c]|]; reflexivity.
  - destruct (mtch r accept (0, String a s) []) as [[e c]|];
      [reflexivity | apply exec_from_bol].
Qed.

Lemma test_bol (r : regex) (s : string) :
  test (Seq Bol r) s =
  match mtch r accept (0, s) [] with Some _ => true | None => false end.
Proof.
  unfold test. rewrite exec_bol.
  destruct (mtch r accept (0, s) []) as [[e c]|]; reflexivity.
Qed.

Lemma test_exec (r : regex) (s : string) :
  test r s = true -> exists m, exec r s = Some m.
Proof.
  unfold test. destruct (exec r s) as [m|]; [eauto | discriminate].
Qed.

(** *** The branches of the callback *)

Section Branches.

Variable opts : ParseOptions.
Variable lines : list string.

Definition within_ceiling (st : state) : Prop :=
  Z.ltb (maxNestingLevel opts) (Z.of_nat (nestingLevel st)) = false.

Lemma step_skip st line index n :
  skipLines st = S n -> step opts lines st line index = set_skipLines n st.
Proof. intros H. unfold step. rewrite H. reflexivity. Qed.

Lemma step_error st line index :
  skipLines st = 0 ->
  Z.ltb (maxNestingLevel opts) (Z.of_nat (nestingLevel st)) = true ->
  step opts lines st line index = push (error_node index) st.
Proof. intros H1 H2. unfold step. rewrite H1, H2. reflexivity. Qed.

Lemma step_term st line index :
  skipLines st = 0 -> within_ceiling st ->
  is_term lines line index = true ->
  step opts lines st line index =
  push (dl_node opts index (trim line)
          (collect_definitions (skipn (index + 1) lines)))
       (set_skipLines (length (collect_definitions (skipn (index + 1) lines)))
          st).
Proof. intros H1 H2 H3. unfold step. rewrite H1, H2, H3. reflexivity. Qed.

Lemma forEach_from_app {A St} (f : St -> A -> nat -> St) (a b : list A) :
  forall i st,
    forEach_from f (a ++ b) i st =
    forEach_from f b (i + length a) (forEach_from f a i st).
Proof.
  induction a as [|x a IH]; intros i st; simpl.
  - rewrite Nat.add_0_r. reflexivity.
  - rewrite IH. f_equal. lia.
Qed.

End Branches.

Ltac eval_tests :=
  repeat match goal with
  | |- context [test ?r ?s] =>
      let b := eval vm_compute in (test r s) in change (test r s) with b
  end.

(** *** Concrete inputs *)

Section ConcreteInputs.

Variable opts : ParseOptions.

Lemma single_line (line : string) :
  trim line = line ->
  split newline_re line = [line] ->
  parse opts line = html (step opts [line] init line 0).
Proof. intros Ht Hs. unfold parse. rewrite Ht, Hs. reflexivity. Qed.

(** C8, as amended.  With a ceiling that is not negative, [parse] of the
    empty string is the empty sequence: the one empty line passes every
    rule and the paragraph rule emits nothing for blank text. *)
Theorem C8_empty_input :
  (0 <= maxNestingLevel opts)%Z -> parse opts "" = [].
Proof.
  intros H. rewrite single_line by reflexivity.
  unfold step. simpl skipLines. cbv iota. simpl nestingLevel.
  replace (Z.ltb (maxNestingLevel opts) (Z.of_nat 0)) with false
    by (symmetry; apply Z.ltb_ge; exact H).
  reflexivity.
Qed.

(** C5.  The single line [| H1 | H2 |] yields exactly one node, a table
    whose header row has the two cells H1 and H2 and whose body is empty. *)
Theorem C5_header_only_table :
  (0 <= maxNestingLevel opts)%Z ->
  let t := build_table opts ["| H1 | H2 |"] "| H1 | H2 |" 0 in
  parse opts "| H1 | H2 |" = [t]
  /\ tag_of t = "table"
  /\ map children_of (table_header_cells t) = [[NText "H1"]; [NText "H2"]]
  /\ length (table_header_cells t) = 2
  /\ length (table_body_rows t) = 0.
Proof.
  intros H t. split; [| repeat split].
  rewrite single_line by reflexivity.
  unfold step. simpl skipLines. cbv iota. simpl nestingLevel.
  replace (Z.ltb (maxNestingLevel opts) (Z.of_nat 0)) with false
    by (symmetry; apply Z.ltb_ge; exact H).
  reflexivity.
Qed.

(** C6.  The inline formatter maps both triple-emphasis inputs to one
    strong element wrapping one em element around x; the bold rule applied
    to the same input first would leave a literal star on each side. *)
Theorem C6_triple_emphasis :
  processInlineFormatting opts "***x***" = "<strong><em>x</em></strong>"
  /\ processInlineFormatting opts "___x___" = "<strong><em>x</em></strong>"
  /\ replace_all (delimited "**" "**") (wrap "<strong>" "</strong>") "***x***"
     = "<strong>*x</strong>*".
Proof. repeat split; vm_compute; reflexivity. Qed.

Lemma obj_get_set_other {V} (k k' : string) (v : V) (o : list (string * V)) :
  String.eqb k' k = false -> obj_get k (obj_set k' v o) = obj_get k o.
Proof.
  intros H. induction o as [|[a b] o IH]; simpl.
  - rewrite H. reflexivity.
  - destruct (String.eqb a k') eqn:E; simpl.
    + apply String.eqb_eq in E. subst a. rewrite H. reflexivity.
    + destruct (String.eqb a k); [reflexivity | exact IH].
Qed.

Lemma obj_get_filter_defined (k : string) (o : props) :
  obj_get k (filter is_defined o) =
  match obj_get k (filter is_defined o) with
  | Some VUndef => None
  | x => x
  end.
Proof.
  induction o as [|[a b] o IH]; simpl; [reflexivity|].
  unfold is_defined at 1 3. simpl.
  destruct b; simpl; try exact IH;
    destruct (String.eqb a k); try reflexivity; exact IH.
Qed.

(** C7.  The anchor of a link token has the attribute [rel] exactly when
    the configured target is [_blank], and then its value is
    [noopener noreferrer]; the attribute list is what the anchor text is
    printed from, and the four targets give the four anchors below. *)
Theorem C7_link_rel (url text : string) (title : option string) :
  obj_get "rel" (link_attributes opts url title)
  = (if is_blank (linkTarget opts)
     then Some (VStr "noopener noreferrer") else None)
  /\ obj_get "target" (link_attributes opts url title)
     = Some (VStr (LinkTarget_str (linkTarget opts)))
  /\ link_replace opts text url title
     = "<a "
       ++ join " " (map (fun kv => fst kv ++ "=" ++ quote
                                   ++ pval_str (snd kv) ++ quote)
                        (link_attributes opts url title))
       ++ ">" ++ text ++ "</a>"
  /\ (forall t,
        processInlineFormatting (with_linkTarget t default_options)
          "[text](url)"
        = "<a href=" ++ quote ++ "url" ++ quote
          ++ " target=" ++ quote ++ LinkTarget_str t ++ quote
          ++ (if is_blank t
              then " rel=" ++ quote ++ "noopener noreferrer" ++ quote
              else "")
          ++ ">text</a>").
Proof.
  assert (Hshape : exists tl,
             link_attributes opts url title
             = (("href", VStr url)
                  :: match truthy_str title with
                     | Some t => [("title", VStr t)]
                     | None => []
                     end
                  ++ ("target", VStr (LinkTarget_str (linkTarget opts)))
                  :: (if is_blank (linkTarget opts)
                      then [("rel", VStr "noopener noreferrer")] else [])
                  ++ tl)%list
             /\ obj_get "rel" tl = None /\ obj_get "target" tl = None).
  { unfold link_attributes, link_props, getElementProperties.
    set (sty := match obj_spread (customStyles opts links) _ with
                | [] => VUndef | _ => VStyle _ end).
    set (cls := str_or_undef _).
    destruct (truthy_str title) as [t|]; simpl;
      destruct (is_blank (linkTarget opts)); simpl;
      unfold is_defined; simpl;
      destruct sty; destruct cls; simpl;
      eexists; (split; [reflexivity | split; reflexivity]). }
  destruct Hshape as (tl & E & Hrel & Htgt).
  split; [| split; [| split]].
  - rewrite E.
    destruct (truthy_str title); destruct (is_blank (linkTarget opts));
      simpl; try reflexivity; exact Hrel.
  - rewrite E. destruct (truthy_str title); simpl; reflexivity.
  - reflexivity.
  - intros []; vm_compute; reflexivity.
Qed.

(** C1, the behaviour of the code.  The option [sanitizeHtml] is never
    read: [parse] gives the same nodes for both of its values, and with
    the default [true] the five characters reach the paragraph markup
    unescaped. *)
Theorem C1_sanitizeHtml_not_applied :
  let raw := "<b>&'" ++ quote ++ "</b>" in
  (forall (b : bool) (markdown : string),
      parse (with_sanitizeHtml b opts) markdown = parse opts markdown)
  /\ map inner_html (parse (with_sanitizeHtml true default_options) raw)
     = [Some raw]
  /\ map inner_html (parse (with_sanitizeHtml false default_options) raw)
     = [Some raw].
Proof.
  intros raw. split; [| split].
  - intros b markdown. reflexivity.
  - vm_compute. reflexivity.
  - vm_compute. reflexivity.
Qed.

End ConcreteInputs.

(** C8, the claim as stated.  With the ceiling [-1] the nesting guard fires
    on the one empty line and the output is one error node. *)
Lemma C8_counterexample :
  parse (with_maxNestingLevel (-1) default_options) ""
  = [error_node 0]
  /\ parse (with_maxNestingLevel (-1) default_options) "" <> [].
Proof. split; [vm_compute; reflexivity | vm_compute; discriminate]. Qed.

Lemma C8_empty_input_witness :
  (0 <= maxNestingLevel default_options)%Z /\ parse default_options "" = [].
Proof.
  split; [simpl; lia | apply (C8_empty_input default_options); simpl; lia].
Defined.

Lemma C5_header_only_table_witness :
  parse default_options "| H1 | H2 |"
  = [build_table default_options ["| H1 | H2 |"] "| H1 | H2 |" 0].
Proof.
  apply (C5_header_only_table default_options). simpl. lia.
Defined.

(* ------------------------------------------------------------------ *)
(** *** The scanning loop *)

Section Loop.

Variable opts : ParseOptions.
Variable lines : list string.

Local Abbreviation step' := (step opts lines).

Definition over_ceiling (st : state) : Prop :=
  (maxNestingLevel opts < Z.of_nat (nestingLevel st))%Z.

Lemma over_ceiling_ltb st :
  over_ceiling st <->
  Z.ltb (maxNestingLevel opts) (Z.of_nat (nestingLevel st)) = true.
Proof. unfold over_ceiling. symmetry. apply Z.ltb_lt. Qed.

Lemma firstn_S_nth (k : nat) :
  k < length lines ->
  firstn (S k) lines = (firstn k lines ++ [nth k lines ""])%list.
Proof.
  revert k. induction lines as [|x l IH]; intros k H; simpl in H; [lia|].
  destruct k as [|k]; [reflexivity|].
  change (firstn (S (S k)) (x :: l)) with (x :: firstn (S k) l).
  rewrite IH by lia. reflexivity.
Qed.

Lemma run_S (k : nat) :
  k < length lines ->
  run opts lines (S k) = step' (run opts lines k) (nth k lines "") k.
Proof.
  intros H. unfold run. rewrite firstn_S_nth by exact H.
  rewrite forEach_from_app. simpl.
  rewrite length_firstn, Nat.min_l by lia. reflexivity.
Qed.

Lemma run_all : parse_lines opts lines = run opts lines (length lines).
Proof. unfold run, parse_lines. rewrite firstn_all. reflexivity. Qed.

(** Whenever the nesting level is over the ceiling no line is waiting to be
    skipped: the two counters are never raised by the same rule. *)
Definition guard_inv (st : state) : Prop :=
  over_ceiling st -> skipLines st = 0.

Lemma step_guard_inv st line index :
  guard_inv st -> guard_inv (step' st line index).
Proof.
  unfold guard_inv. intros Hinv.
  destruct (skipLines st) as [|n] eqn:Hs.
  - destruct (Z.ltb (maxNestingLevel opts) (Z.of_nat (nestingLevel st)))
      eqn:Hg.
    + rewrite step_error by assumption. intros _. exact Hs.
    + unfold step. rewrite Hs, Hg.
      destruct (is_term lines line index).
      { unfold over_ceiling. simpl. intros Ho.
        apply Z.ltb_lt in Ho. congruence. }
      repeat match goal with
             | |- context [if ?b then _ else _] =>
                 match b with
                 | test _ _ => destruct b
                 | inCodeBlock _ => destruct b
                 | negb _ => destruct b
                 | andb _ _ => destruct b
                 end
             | |- context [match exec ?r ?s with _ => _ end] =>
                 destruct (exec r s)
             end; intros _; simpl; exact Hs.
  - rewrite (step_skip opts lines st line index n Hs).
    unfold over_ceiling. simpl. intros Ho.
    specialize (Hinv Ho). congruence.
Qed.

Lemma forEach_guard_inv (l : list string) :
  forall i st, guard_inv st -> guard_inv (forEach_from step' l i st).
Proof.
  induction l as [|x l IH]; intros i st H; simpl; [exact H|].
  apply IH, step_guard_inv, H.
Qed.

Lemma run_guard_inv (k : nat) : guard_inv (run opts lines k).
Proof.
  apply forEach_guard_inv. unfold guard_inv. reflexivity.
Qed.

(** Past the ceiling the loop only appends error nodes. *)
Definition push_all (ns : list node) (st : state) : state :=
  {| html := html st ++ ns; inCodeBlock := inCodeBlock st;
     codeBlockLang := codeBlockLang st; codeBlock := codeBlock st;
     nestingLevel := nestingLevel st; skipLines := skipLines st |}.

Lemma forEach_over_ceiling (l : list string) :
  forall i st,
    skipLines st = 0 -> over_ceiling st ->
    forEach_from step' l i st
    = push_all (map error_node (seq i (length l))) st.
Proof.
  induction l as [|x l IH]; intros i st Hs Ho; simpl.
  - unfold push_all. rewrite app_nil_r. destruct st; reflexivity.
  - rewrite step_error by (try apply over_ceiling_ltb; assumption).
    rewrite IH by assumption.
    unfold push_all, push. simpl. rewrite <- app_assoc. reflexivity.
Qed.

Lemma run_split (k : nat) :
  k <= length lines ->
  forall j, k <= j <= length lines ->
    run opts lines j
    = forEach_from step' (firstn (j - k) (skipn k lines)) k (run opts lines k).
Proof.
  intros Hk j Hj. unfold run.
  replace (firstn j lines)
    with (firstn k lines ++ firstn (j - k) (skipn k lines))%list.
  - rewrite forEach_from_app, length_firstn, Nat.min_l by lia. reflexivity.
  - rewrite <- skipn_firstn_comm.
    replace (firstn k lines) with (firstn k (firstn j lines))
      by (rewrite firstn_firstn, Nat.min_l by lia; reflexivity).
    apply firstn_skipn.
Qed.

End Loop.

(** The list of the test suite: seven items, two more spaces each. *)
Definition seven_levels : string :=
  "- Level 1" ++ LF ++
  "  - Level 2" ++ LF ++
  "    - Level 3" ++ LF ++
  "      - Level 4" ++ LF ++
  "        - Level 5" ++ LF ++
  "          - Level 6" ++ LF ++
  "            - Level 7".

(** C10.  Once the state after [k] lines has a nesting level over the
    ceiling, the level keeps its value to the end of the call and every
    later line, whatever it holds, adds exactly one error node: the output
    is the nodes emitted so far followed by one error node per remaining
    line. *)
Theorem C10_ceiling_is_absorbing (opts : ParseOptions) (markdown : string)
    (k : nat) :
  let lines := split newline_re (trim markdown) in
  k <= length lines ->
  over_ceiling opts (run opts lines k) ->
  parse opts markdown
  = (html (run opts lines k)
       ++ map error_node (seq k (length lines - k)))%list
  /\ forall j, k <= j <= length lines ->
       nestingLevel (run opts lines j) = nestingLevel (run opts lines k)
       /\ html (run opts lines j)
          = (html (run opts lines k) ++ map error_node (seq k (j - k)))%list.
Proof.
  intros lines Hk Ho.
  assert (Hj : forall j, k <= j <= length lines ->
             run opts lines j
             = push_all (map error_node (seq k (j - k))) (run opts lines k)).
  { intros j Hj. rewrite (run_split opts lines k Hk j Hj).
    rewrite forEach_over_ceiling
      by (try apply run_guard_inv; assumption).
    rewrite length_firstn, length_skipn, Nat.min_l by lia. reflexivity. }
  split.
  - unfold parse. fold lines. rewrite run_all, Hj by lia. reflexivity.
  - intros j Hjk. rewrite (Hj j Hjk). split; reflexivity.
Qed.

Lemma C10_ceiling_is_absorbing_witness :
  let o := with_maxNestingLevel 3 default_options in
  parse o seven_levels
  = (html (run o (split newline_re (trim seven_levels)) 5)
       ++ [error_node 5; error_node 6])%list.
Proof.
  intros o.
  apply (C10_ceiling_is_absorbing o seven_levels 5).
  - vm_compute. lia.
  - vm_compute. reflexivity.
Defined.

(** C4.  With the ceiling 3 the seven-level list gives five list nodes and
    then, for the sixth and the seventh line, the error node with the text
    [Maximum nesting level reached]; and in any run, a line that the loop
    reaches with the nesting level over the ceiling adds that error node
    and nothing else. *)
Theorem C4_nesting_ceiling :
  let o := with_maxNestingLevel 3 default_options in
  map (fun n => (tag_of n, children_of n)) (parse o seven_levels)
  = [ ("ul", [NElem "li" None [] [NText "Level 1"]]);
      ("ul", [NElem "li" None [] [NText "Level 2"]]);
      ("ul", [NElem "li" None [] [NText "Level 3"]]);
      ("ul", [NElem "li" None [] [NText "Level 4"]]);
      ("ul", [NElem "li" None [] [NText "Level 5"]]);
      ("p", [NText "Maximum nesting level reached"]);
      ("p", [NText "Maximum nesting level reached"]) ]
  /\ existsb is_error (parse o seven_levels) = true
  /\ forall (opts : ParseOptions) (markdown : string) (k : nat),
       let lines := split newline_re (trim markdown) in
       k < length lines ->
       over_ceiling opts (run opts lines k) ->
       run opts lines (S k) = push (error_node k) (run opts lines k).
Proof.
  intros o. split; [vm_compute; reflexivity |].
  split; [vm_compute; reflexivity |].
  intros opts markdown k lines Hk Ho.
  rewrite run_S by exact Hk.
  apply step_error.
  - apply run_guard_inv, Ho.
  - apply over_ceiling_ltb, Ho.
Qed.

Lemma C4_nesting_ceiling_witness :
  let o := with_maxNestingLevel 3 default_options in
  let lines := split newline_re (trim seven_levels) in
  run o lines 6 = push (error_node 5) (run o lines 5).
Proof.
  intros o lines.
  apply (proj2 (proj2 C4_nesting_ceiling) o seven_levels 5).
  - vm_compute. lia.
  - vm_compute. reflexivity.
Defined.

(* ------------------------------------------------------------------ *)
(** *** An open fence *)

Section OpenFence.

Variable opts : ParseOptions.
Variable lines : list string.

Definition not_pre (n : node) : Prop := is_tag "pre" n = false.

Lemma list_neq_snoc {A} (l : list A) (x : A) : l <> (l ++ [x])%list.
Proof.
  intros H. apply (f_equal (@length A)) in H.
  rewrite length_app in H. simpl in H. lia.
Qed.

(** While the fence is open, a line that is not a fence line keeps it open;
    the rules that come before the buffer (the nesting guard, definition
    list, task item, heading) may emit their node, the buffer emits none. *)
Lemma step_open_fence st line index :
  inCodeBlock st = true ->
  test fence_re (trim line) = false ->
  inCodeBlock (step opts lines st line index) = true
  /\ (exists extra,
         html (step opts lines st line index) = (html st ++ extra)%list
         /\ Forall not_pre extra)
  /\ (codeBlock (step opts lines st line index)
      = (codeBlock st ++ [line])%list ->
      html (step opts lines st line index) = html st).
Proof.
  intros Hc Hf. unfold step.
  assert (Hsame : forall h : list node,
             exists extra, h = (h ++ extra)%list /\ Forall not_pre extra).
  { intros h. exists []. rewrite app_nil_r. split; [reflexivity | constructor]. }
  assert (Hone : forall (h : list node) n,
             not_pre n ->
             exists extra,
               (h ++ [n])%list = (h ++ extra)%list /\ Forall not_pre extra).
  { intros h n Hn. exists [n]. split; [reflexivity | repeat constructor; exact Hn]. }
  destruct (skipLines st) as [|n].
  2:{ simpl. split; [exact Hc | split; [apply Hsame | reflexivity]]. }
  destruct (Z.ltb (maxNestingLevel opts) (Z.of_nat (nestingLevel st))).
  { simpl. split; [exact Hc | split; [apply Hone; reflexivity |]].
    intros H. destruct (list_neq_snoc _ _ H). }
  destruct (is_term lines line index).
  { simpl. split; [exact Hc | split; [apply Hone; reflexivity |]].
    intros H. destruct (list_neq_snoc _ _ H). }
  destruct (test task_re (trim line)).
  { simpl. split; [exact Hc | split; [apply Hone; reflexivity |]].
    intros H. destruct (list_neq_snoc _ _ H). }
  destruct (test heading_re (trim line)).
  { simpl. split; [exact Hc | split; [apply Hone; reflexivity |]].
    intros H. destruct (list_neq_snoc _ _ H). }
  rewrite Hf, Hc. simpl.
  split; [reflexivity | split; [apply Hsame | reflexivity]].
Qed.

Lemma forEach_open_fence (l : list string) :
  forall i st,
    inCodeBlock st = true ->
    Forall (fun line => test fence_re (trim line) = false) l ->
    inCodeBlock (forEach_from (step opts lines) l i st) = true
    /\ exists extra,
         html (forEach_from (step opts lines) l i st) = (html st ++ extra)%list
         /\ Forall not_pre extra.
Proof.
  induction l as [|x l IH]; intros i st Hc Hl; simpl.
  - split; [exact Hc|]. exists []. rewrite app_nil_r.
    split; [reflexivity | constructor].
  - inversion Hl as [|? ? Hx Hl']; subst.
    destruct (step_open_fence st x i Hc Hx) as (Hc' & (e1 & He1 & Hp1) & _).
    destruct (IH (S i) _ Hc' Hl') as (Hc'' & e2 & He2 & Hp2).
    split; [exact Hc''|].
    exists (e1 ++ e2)%list. rewrite He2, He1, app_assoc.
    split; [reflexivity | apply Forall_app; split; assumption].
Qed.

Lemma no_fence_from (k : nat) :
  (forall j, k <= j < length lines ->
     test fence_re (trim (nth j lines "")) = false) ->
  forall n,
    Forall (fun line => test fence_re (trim line) = false)
      (firstn n (skipn k lines)).
Proof.
  intros H n. apply Forall_nth. intros i d Hi.
  rewrite length_firstn, length_skipn in Hi.
  rewrite (nth_indep _ d "")
    by (rewrite length_firstn, length_skipn; exact Hi).
  rewrite nth_firstn.
  replace (Nat.ltb i n) with true by (symmetry; apply Nat.ltb_lt; lia).
  rewrite nth_skipn. apply H. lia.
Qed.

End OpenFence.

(** C9.  If a fence is open after [k] lines and no later line is a fence
    line, the fence is still open when [parse] returns; the nodes emitted
    after line [k] contain no code-block node; and each line that is
    appended to the fence buffer emits no node, so that the buffered text is
    in no node of the output. *)
Theorem C9_unclosed_fence (opts : ParseOptions) (markdown : string) (k : nat) :
  let lines := split newline_re (trim markdown) in
  k <= length lines ->
  inCodeBlock (run opts lines k) = true ->
  (forall j, k <= j < length lines ->
     test fence_re (trim (nth j lines "")) = false) ->
  inCodeBlock (parse_lines opts lines) = true
  /\ (exists extra,
         parse opts markdown = (html (run opts lines k) ++ extra)%list
         /\ Forall not_pre extra)
  /\ (forall j, k <= j < length lines ->
        codeBlock (run opts lines (S j))
        = (codeBlock (run opts lines j) ++ [nth j lines ""])%list ->
        html (run opts lines (S j)) = html (run opts lines j)).
Proof.
  intros lines Hk Hc Hf.
  assert (Hopen : forall j, k <= j <= length lines ->
             inCodeBlock (run opts lines j) = true
             /\ exists extra,
                  html (run opts lines j)
                  = (html (run opts lines k) ++ extra)%list
                  /\ Forall not_pre extra).
  { intros j Hj. rewrite (run_split opts lines k Hk j Hj).
    apply forEach_open_fence; [exact Hc | apply no_fence_from, Hf]. }
  split; [| split].
  - rewrite run_all. apply Hopen. lia.
  - unfold parse. fold lines. rewrite run_all. apply Hopen. lia.
  - intros j Hj. rewrite run_S by lia.
    apply step_open_fence; [apply Hopen; lia | apply Hf; lia].
Qed.

Lemma C9_unclosed_fence_witness :
  let markdown := "intro" ++ LF ++ "```js" ++ LF ++ "let x;" ++ LF ++ "x = 1;" in
  let lines := split newline_re (trim markdown) in
  inCodeBlock (parse_lines default_options lines) = true
  /\ (exists extra,
         parse default_options markdown
         = (html (run default_options lines 2) ++ extra)%list
         /\ Forall not_pre extra)
  /\ (forall j, 2 <= j < length lines ->
        codeBlock (run default_options lines (S j))
        = (codeBlock (run default_options lines j) ++ [nth j lines ""])%list ->
        html (run default_options lines (S j))
        = html (run default_options lines j)).
Proof.
  intros markdown lines.
  apply (C9_unclosed_fence default_options markdown 2).
  - vm_compute. lia.
  - vm_compute. reflexivity.
  - intros j Hj.
    change (length (split newline_re (trim markdown))) with 4 in Hj.
    assert (E : j = 2 \/ j = 3) by lia.
    destruct E; subst j; vm_compute; reflexivity.
Defined.

(* ------------------------------------------------------------------ *)
(** *** Heading lines *)

Fixpoint hashes (n : nat) : string :=
  match n with
  | 0 => ""
  | S n' => String "#" (hashes n')
  end.

Lemma trimEnd_hash (s : string) :
  trimEnd (String "#" s) = String "#" (trimEnd s).
Proof. reflexivity. Qed.

Lemma trim_hash (s : string) : trim (String "#" s) = String "#" (trimEnd s).
Proof. reflexivity. Qed.

Lemma trimEnd_hashes (n : nat) (s : string) :
  trimEnd (hashes n ++ s) = hashes n ++ trimEnd s.
Proof.
  induction n as [|n IH]; [reflexivity|].
  change (hashes (S n) ++ s) with (String "#" (hashes n ++ s)).
  rewrite trimEnd_hash, IH. reflexivity.
Qed.

Lemma trimEnd_blank (s : string) :
  trimEnd s = "" -> trimEnd (trimStart s) = "".
Proof.
  induction s as [|c s IH]; [reflexivity|].
  simpl. destruct (is_space c); simpl.
  - destruct (trimEnd s); [intros _; apply IH; reflexivity | discriminate].
  - discriminate.
Qed.

Lemma trimEnd_space_cons (w : ascii) (s : string) :
  trim s <> "" -> trimEnd (String w s) = String w (trimEnd s).
Proof.
  intros H. simpl.
  destruct (trimEnd s) eqn:E.
  - destruct H. apply trimEnd_blank, E.
  - rewrite andb_false_r. reflexivity.
Qed.

Lemma space_not_hash (w : ascii) :
  is_space w = true -> Ascii.eqb "#" w = false.
Proof.
  intros H. destruct (Ascii.eqb_spec "#"%char w) as [<-|]; [discriminate | reflexivity].
Qed.

Ltac anchored r := unfold r; cbn [cat]; rewrite test_bol.

(** A line that starts with [#] is no task item, fence, blockquote, table
    row or list item. *)
Lemma hash_rules (s : string) :
  test task_re (String "#" s) = false
  /\ test fence_re (String "#" s) = false
  /\ test quote_re (String "#" s) = false
  /\ test table_re (String "#" s) = false
  /\ test list_re (String "#" s) = false.
Proof.
  repeat split.
  - anchored task_re. reflexivity.
  - anchored fence_re. reflexivity.
  - anchored quote_re. reflexivity.
  - anchored table_re. reflexivity.
  - anchored list_re. reflexivity.
Qed.

Lemma seven_hashes_not_heading (s : string) :
  test heading_re (hashes 7 ++ s) = false.
Proof. anchored heading_re. reflexivity. Qed.

(** No substitution rule can start a match at a [#]. *)
Lemma replace_all_hash (opts : ParseOptions) :
  Forall (fun rr =>
            forall s, replace_all (fst rr) (snd rr) (String "#" s)
                      = String "#" (replace_go (fst rr) (snd rr) 1 s 0))
         (replacements opts).
Proof. repeat constructor. Qed.

Lemma processInlineFormatting_hash (opts : ParseOptions) (s : string) :
  exists z, processInlineFormatting opts (String "#" s) = String "#" z.
Proof.
  unfold processInlineFormatting. simpl is_empty. cbv iota.
  generalize (replace_all_hash opts). generalize s.
  induction (replacements opts) as [|rr l IH]; intros s0 H; simpl.
  - eauto.
  - inversion H as [|? ? Hrr Hl]; subst. rewrite Hrr. apply IH, Hl.
Qed.

Lemma length_hashes_app (n : nat) (s : string) :
  String.length (hashes n ++ s) = n + String.length s.
Proof. induction n as [|n IH]; simpl; [reflexivity | rewrite IH; reflexivity]. Qed.

Lemma skipn_hashes (n : nat) (s : string) :
  skipn_string n (hashes n ++ s) = s.
Proof.
  induction n as [|n IH]; simpl; [destruct s; reflexivity | exact IH].
Qed.

Lemma mtch_chr_miss (a : ascii) (k : cont) (p : nat) (s : string) (c : caps) :
  startsWith s (String a "") = false -> mtch (Chr a) k (p, s) c = None.
Proof.
  destruct s as [|b s]; intros H; [reflexivity|].
  cbn [mtch snd]. cbn [startsWith] in H.
  destruct (Ascii.eqb a b); [discriminate H | reflexivity].
Qed.

(** The greedy quantifier over [#] takes a run of [n] marks whole when the
    bounds allow it and the rest of the pattern accepts what follows. *)
Lemma rep_hashes (n : nat) :
  forall fuel mn mx k p s c x,
    n < fuel -> mn <= n -> n <= mx ->
    startsWith s "#" = false ->
    k (p + n, s) c = Some x ->
    rep_loop fuel (mtch (Chr "#")) true mn (Some mx) k (p, hashes n ++ s) c
    = Some x.
Proof.
  induction n as [|n IH]; intros fuel mn mx k p s c x Hf Hmn Hmx Hs Hk;
    (destruct fuel as [|fuel]; [lia|]).
  - assert (mn = 0) by lia. subst mn.
    rewrite Nat.add_0_r in Hk.
    change (hashes 0 ++ s) with s.
    destruct mx as [|mx]; cbn [rep_loop]; [exact Hk|].
    cbv zeta. rewrite mtch_chr_miss by exact Hs. exact Hk.
  - destruct mx as [|mx]; [lia|].
    change (hashes (S n) ++ s) with (String "#" (hashes n ++ s)).
    assert (Hiter :
              mtch (Chr "#")
                (fun st' c' =>
                   if Nat.eqb mn 0 && Nat.eqb (fst st') (fst (p, String "#" (hashes n ++ s)))
                   then None
                   else rep_loop fuel (mtch (Chr "#")) true (pred mn)
                          (dec_max (Some (S mx))) k st' c')
                (p, String "#" (hashes n ++ s)) c = Some x).
    { cbn [mtch snd fst]. rewrite Ascii.eqb_refl. cbn [fst].
      replace (Nat.eqb (S p) p) with false
        by (symmetry; apply Nat.eqb_neq; lia).
      rewrite andb_false_r.
      apply IH; try lia; [exact Hs|].
      replace (S p + n) with (p + S n) by lia. exact Hk. }
    cbn [rep_loop]. cbv zeta.
    destruct (Nat.ltb 0 mn); rewrite Hiter; reflexivity.
Qed.

Section HeadingLine.

Variables (N : nat) (w : ascii) (text : string).
Hypothesis HN : 1 <= N <= 6.
Hypothesis Hw : is_space w = true.

Let line : string := hashes N ++ String w text.

Lemma heading_marks_run (k : cont) (s : string) (x : nat * caps) :
  k (N, String w s) [] = Some x ->
  mtch (Rep true 1 (Some 6) (Chr "#")) k (0, hashes N ++ String w s) []
  = Some x.
Proof.
  intros Hk. cbn [mtch snd].
  apply rep_hashes; try lia.
  - rewrite length_hashes_app. lia.
  - cbn [startsWith]. rewrite space_not_hash by exact Hw. reflexivity.
  - exact Hk.
Qed.

Lemma heading_exec (s : string) :
  exec heading_re (hashes N ++ String w s)
  = Some {| m_start := 0; m_end := S N; m_caps := [] |}.
Proof.
  unfold heading_re. cbn [cat]. rewrite exec_bol.
  change (mtch (Seq (Rep true 1 (Some 6) (Chr "#")) ws) accept)
    with (mtch (Rep true 1 (Some 6) (Chr "#")) (mtch ws accept)).
  rewrite (heading_marks_run _ s (S N, [])); [reflexivity|].
  cbn [mtch ws snd fst]. rewrite Hw. reflexivity.
Qed.

Lemma heading_marks_exec :
  exec heading_marks_re line
  = Some {| m_start := 0; m_end := N; m_caps := [] |}.
Proof.
  unfold heading_marks_re, line. cbn [cat]. rewrite exec_bol.
  rewrite (heading_marks_run accept text (N, [])); reflexivity.
Qed.

Lemma heading_level_line : heading_level line = N.
Proof.
  unfold heading_level. rewrite heading_marks_exec.
  unfold match_length. simpl. rewrite Nat.sub_0_r.
  destruct N; [lia | reflexivity].
Qed.

Lemma heading_text_line :
  replace_first heading_re (fun _ => "") line = text.
Proof.
  unfold replace_first, line. rewrite heading_exec. cbn [m_start m_end m_caps].
  replace (substring 0 0 (hashes N ++ String w text)) with ""
    by (destruct (hashes N ++ String w text); reflexivity).
  change (skipn_string (S N) (hashes N ++ String w text))
    with (skipn_string (S N) (hashes N ++ String w text)).
  cbn [append].
  replace (S N) with (N + 1) by lia.
  clear HN line. induction N as [|n IH]; [reflexivity | exact IH].
Qed.

Lemma trim_heading_line :
  trim text <> "" -> trim line = hashes N ++ String w (trimEnd text).
Proof.
  intros Ht. unfold line.
  destruct N as [|n] eqn:E; [lia|].
  change (hashes (S n) ++ String w text)
    with (String "#" (hashes n ++ String w text)).
  rewrite trim_hash, trimEnd_hashes, trimEnd_space_cons by exact Ht.
  reflexivity.
Qed.

End HeadingLine.

(** C3, as amended.  A line of N marks, 1 to 6, then whitespace and text
    that is not blank, reaching the rules (not skipped, ceiling not
    exceeded) and not followed by a definition marker, adds exactly the
    heading node of level N.  A line of more than 6 marks never matches the
    heading rule; reaching the later rules outside a code fence it is an
    image node if it holds an image token and a paragraph node otherwise. *)
Theorem C3_heading_levels (opts : ParseOptions) (lines : list string)
    (st : state) (index : nat) :
  skipLines st = 0 ->
  within_ceiling opts st ->
  (forall N w text,
      1 <= N <= 6 -> is_space w = true -> trim text <> "" ->
      let line := hashes N ++ String w text in
      is_term lines line index = false ->
      test heading_re (trim line) = true
      /\ step opts lines st line index
         = push (heading_node opts index line) st
      /\ heading_level line = N
      /\ tag_of (heading_node opts index line) = "h" ++ of_nat N)
  /\ (forall N rest,
        6 < N ->
        let line := hashes N ++ rest in
        test heading_re (trim line) = false
        /\ (is_term lines line index = false ->
            inCodeBlock st = false ->
            step opts lines st line index
            = match exec image_re (trim line) with
              | Some m => push (image_node opts index m) st
              | None =>
                  push (paragraph_node opts index
                          (processInlineFormatting opts (trim line))) st
              end)).
Proof.
  intros Hs Hg. split.
  - intros N w text HN Hw Ht line Hterm.
    assert (Htest : test heading_re (trim line) = true).
    { unfold line. rewrite trim_heading_line by assumption.
      unfold test. rewrite heading_exec by assumption. reflexivity. }
    assert (Htask : test task_re (trim line) = false).
    { unfold line. rewrite trim_heading_line by assumption.
      destruct N as [|n]; [lia|]. apply hash_rules. }
    split; [exact Htest|]. split; [| split].
    + unfold step. rewrite Hs, Hg, Hterm, Htask, Htest. reflexivity.
    + apply heading_level_line; assumption.
    + unfold heading_node. cbn [tag_of].
      unfold line. rewrite heading_level_line by assumption. reflexivity.
  - intros N rest HN line.
    assert (E : exists s, trim line = hashes 7 ++ s).
    { unfold line.
      do 7 (destruct N as [|N]; [lia|]).
      exists (trimEnd (hashes N ++ rest)). reflexivity. }
    destruct E as (s & E). rewrite E.
    split; [apply seven_hashes_not_heading|].
    intros Hterm Hc. unfold step.
    rewrite Hs, Hg, Hterm, E, Hc, seven_hashes_not_heading.
    change (hashes 7 ++ s) with (String "#" (hashes 6 ++ s)).
    destruct (hash_rules (hashes 6 ++ s)) as (-> & -> & -> & -> & ->).
    unfold test.
    destruct (exec image_re (String "#" (hashes 6 ++ s))); [reflexivity|].
    destruct (processInlineFormatting_hash opts (hashes 6 ++ s)) as (z & ->).
    reflexivity.
Qed.

Lemma C3_heading_levels_witness :
  let lines := ["### Title"; "####### seven"] in
  step default_options lines init "### Title" 0
  = push (heading_node default_options 0 "### Title") init
  /\ tag_of (heading_node default_options 0 "### Title") = "h3"
  /\ test heading_re (trim "####### seven") = false
  /\ step default_options lines init "####### seven" 1
     = push (paragraph_node default_options 1 "####### seven") init.
Proof.
  intros lines.
  assert (Hs : skipLines init = 0) by reflexivity.
  assert (Hg : within_ceiling default_options init) by reflexivity.
  destruct (C3_heading_levels default_options lines init 0 Hs Hg) as (A & _).
  destruct (C3_heading_levels default_options lines init 1 Hs Hg) as (_ & B).
  assert (H3 : 1 <= 3 <= 6) by lia.
  assert (Hw : is_space " " = true) by reflexivity.
  assert (Ht : trim "Title" <> "") by (vm_compute; discriminate).
  assert (H7 : 6 < 7) by lia.
  pose proof (A 3 " "%char "Title" H3 Hw Ht eq_refl) as (_ & A1 & _ & A2).
  pose proof (B 7 " seven" H7) as (B1 & B2).
  split; [exact A1 | split; [exact A2 | split; [exact B1 |]]].
  apply B2; reflexivity.
Defined.

(** C3, the claim as stated.  A line of seven marks that holds an image
    token is classified by the image rule, not the paragraph rule; and a
    level-1 heading line followed by a definition marker is the term of a
    definition list. *)
Lemma C3_counterexample :
  map tag_of (parse default_options "####### ![a](b)") = ["img"]
  /\ map tag_of (parse default_options ("# T" ++ LF ++ ": d")) = ["dl"].
Proof. split; vm_compute; reflexivity. Qed.

(* ------------------------------------------------------------------ *)
(** *** Multi-line constructs *)

Lemma anchored_first_char (a : ascii) (r : regex) (t : string) :
  test (Seq Bol (Seq (Chr a) r)) t = true -> exists t', t = String a t'.
Proof.
  rewrite test_bol. destruct t as [|b t]; [discriminate|].
  cbn [mtch snd]. destruct (Ascii.eqb_spec a b) as [<-|]; [eauto | discriminate].
Qed.

Lemma table_row_bar (t : string) :
  test table_re t = true -> exists t', t = String "|" t'.
Proof. apply anchored_first_char. Qed.

Lemma fence_tick (t : string) :
  test fence_re t = true -> exists t', t = String "`" t'.
Proof.
  anchored fence_re. destruct t as [|b t]; [discriminate|].
  cbn [mtch lit snd].
  destruct (Ascii.eqb_spec "`"%char b) as [<-|]; [eauto | discriminate].
Qed.

(** A line that starts with a bar is matched by none of the rules that
    come before the table rule, and is no definition marker. *)
Lemma bar_rules (s : string) :
  test task_re (String "|" s) = false
  /\ test heading_re (String "|" s) = false
  /\ test fence_re (String "|" s) = false
  /\ test quote_re (String "|" s) = false.
Proof.
  repeat split.
  - anchored task_re. reflexivity.
  - anchored heading_re. reflexivity.
  - anchored fence_re. reflexivity.
  - anchored quote_re. reflexivity.
Qed.

Lemma tick_rules (s : string) :
  test task_re (String "`" s) = false
  /\ test heading_re (String "`" s) = false.
Proof.
  split.
  - anchored task_re. reflexivity.
  - anchored heading_re. reflexivity.
Qed.

Section Constructs.

Variable opts : ParseOptions.

Definition ready (st : state) : Prop :=
  skipLines st = 0 /\ within_ceiling opts st /\ inCodeBlock st = false.

Definition is_marker (line : string) : bool := startsWith (trim line) ":".

Definition is_row (line : string) : bool := test table_re (trim line).

(** The conditions under which a line inside an open fence reaches the
    buffer. *)
Definition is_buffered (lines : list string) (line : string) (index : nat)
    : bool :=
  negb (is_term lines line index)
  && negb (test task_re (trim line))
  && negb (test heading_re (trim line))
  && negb (test fence_re (trim line)).

(** A multi-line construct standing between the lines [pre] and [post]:
    the lines it occupies and the node it is to give.
    - A definition list: a term line, then all the marker lines.
    - A code block: an opening fence line, the lines that reach the
      buffer, a closing fence line.
    - A table: a header row that is no alignment row and does not follow a
      row, then the rows that follow it, the line after them not being a
      definition marker. *)
Inductive construct (pre post : list string) : list string -> node -> Prop :=
| construct_deflist (term : string) (defs : list string) :
    is_term (pre ++ (term :: defs) ++ post) term (length pre) = true ->
    forallb is_marker defs = true ->
    is_marker (hd "" post) = false ->
    construct pre post (term :: defs)
      (dl_node opts (length pre) (trim term)
         (map (fun d => trim (slice1 (trim d))) defs))
| construct_code (o : string) (body : list string) (c : string) :
    let lines := (pre ++ (o :: body ++ [c]) ++ post)%list in
    test fence_re (trim o) = true ->
    is_term lines o (length pre) = false ->
    (forall j b, nth_error body j = Some b ->
                 is_buffered lines b (length pre + 1 + j) = true) ->
    test fence_re (trim c) = true ->
    is_term lines c (length pre + 1 + length body) = false ->
    construct pre post (o :: body ++ [c])
      (pre_node opts (length pre + 1 + length body) (fence_lang o) body)
| construct_table (header : string) (rows : list string) :
    forallb is_row (header :: rows) = true ->
    test align_re (trim header) = false ->
    is_row (last pre "") = false ->
    is_marker (hd "" post) = false ->
    construct pre post (header :: rows)
      (build_table opts (pre ++ (header :: rows) ++ post) header (length pre)).

Section Steps.

Variable lines : list string.

Lemma step_row st line index :
  ready st ->
  is_term lines line index = false ->
  is_row line = true ->
  step opts lines st line index
  = if Nat.ltb 0 index && is_row (nth (index - 1) lines "") then st
    else if negb (test align_re (trim line))
         then push (build_table opts lines line index) st
         else st.
Proof.
  intros (Hs & Hg & Hc) Hterm Hrow. unfold is_row in *.
  unfold step. rewrite Hs, Hg, Hterm, Hc, Hrow.
  destruct (table_row_bar _ Hrow) as (t & ->).
  destruct (bar_rules t) as (-> & -> & -> & ->). reflexivity.
Qed.

Lemma step_fence st line index :
  skipLines st = 0 -> within_ceiling opts st ->
  is_term lines line index = false ->
  test fence_re (trim line) = true ->
  step opts lines st line index
  = if negb (inCodeBlock st)
    then set_code true (fence_lang line) [] st
    else set_code false None []
           (push (pre_node opts index (codeBlockLang st) (codeBlock st)) st).
Proof.
  intros Hs Hg Hterm Hf. unfold step. rewrite Hs, Hg, Hterm, Hf.
  destruct (fence_tick _ Hf) as (t & ->).
  destruct (tick_rules t) as (-> & ->). reflexivity.
Qed.

Lemma step_buffer st line index :
  skipLines st = 0 -> within_ceiling opts st ->
  inCodeBlock st = true ->
  is_buffered lines line index = true ->
  step opts lines st line index
  = set_code true (codeBlockLang st) (codeBlock st ++ [line]) st.
Proof.
  intros Hs Hg Hc Hb. unfold is_buffered in Hb.
  repeat (apply andb_prop in Hb; destruct Hb as (Hb & ?)).
  repeat match goal with
         | H : negb _ = true |- _ => apply negb_true_iff in H
         end.
  unfold step. rewrite Hs, Hg, Hb, Hc.
  repeat match goal with H : test _ _ = false |- _ => rewrite H; clear H end.
  reflexivity.
Qed.

(** The lines a definition list announced are passed over one by one. *)
Lemma skip_all (l : list string) :
  forall i st,
    skipLines st = length l ->
    forEach_from (step opts lines) l i st = set_skipLines 0 st.
Proof.
  induction l as [|x l IH]; intros i st H; simpl in *.
  - destruct st; simpl in *; subst; reflexivity.
  - rewrite (step_skip opts lines st x i (length l) H).
    rewrite IH by reflexivity. reflexivity.
Qed.

(** The lines that reach the buffer are appended to it in order. *)
Lemma body_buffered (body : list string) :
  forall i st,
    skipLines st = 0 -> within_ceiling opts st -> inCodeBlock st = true ->
    (forall j b, nth_error body j = Some b ->
                 is_buffered lines b (i + j) = true) ->
    forEach_from (step opts lines) body i st
    = set_code true (codeBlockLang st) (codeBlock st ++ body) st.
Proof.
  induction body as [|x body IH]; intros i st Hs Hg Hc Hb; simpl.
  - rewrite app_nil_r. destruct st; simpl in *; subst; reflexivity.
  - rewrite step_buffer; try assumption.
    2:{ specialize (Hb 0 x eq_refl). rewrite Nat.add_0_r in Hb. exact Hb. }
    rewrite IH; try assumption; try reflexivity.
    + simpl. rewrite <- app_assoc. reflexivity.
    + intros j b Hj. replace (S i + j) with (i + S j) by lia.
      apply Hb. exact Hj.
Qed.

End Steps.

Lemma collect_markers (defs post : list string) :
  forallb is_marker defs = true ->
  is_marker (hd "" post) = false ->
  collect_definitions (defs ++ post)
  = map (fun d => trim (slice1 (trim d))) defs.
Proof.
  intros Hd Hp. induction defs as [|d defs IH].
  - destruct post as [|x post]; [reflexivity|].
    cbn [hd] in Hp. unfold is_marker in Hp.
    cbn [app collect_definitions]. rewrite Hp. reflexivity.
  - cbn [forallb] in Hd. apply andb_prop in Hd. destruct Hd as (Hd1 & Hd2).
    unfold is_marker in Hd1.
    cbn [app collect_definitions map]. fold (defs ++ post)%list.
    rewrite Hd1, IH by exact Hd2. reflexivity.
Qed.

Lemma skipn_middle {A} (pre : list A) (x : A) (rest : list A) :
  skipn (length pre + 1) (pre ++ x :: rest) = rest.
Proof.
  induction pre as [|y pre IH]; [reflexivity | exact IH].
Qed.

Lemma nth_middle_plus (pre rest : list string) (j : nat) :
  nth (length pre + j) (pre ++ rest) "" = nth j rest "".
Proof. apply app_nth2_plus. Qed.

End Constructs.

Section Segments.

Variable opts : ParseOptions.
Variables pre post : list string.

Lemma ready_push st n : ready opts st -> ready opts (push n st).
Proof. intros H. exact H. Qed.

Lemma is_term_no_marker (lines : list string) (line : string) (i : nat) :
  is_marker (nth (i + 1) lines "") = false -> is_term lines line i = false.
Proof.
  unfold is_marker, is_term. intros ->. rewrite !andb_false_r. reflexivity.
Qed.

Lemma row_not_marker (line : string) :
  is_row line = true -> is_marker line = false.
Proof.
  unfold is_row, is_marker. intros H.
  destruct (table_row_bar _ H) as (t & ->). reflexivity.
Qed.

Lemma hd_nth_0 (l : list string) : hd "" l = nth 0 l "".
Proof. destruct l; reflexivity. Qed.

Lemma next_not_marker (rows : list string) :
  forallb is_row rows = true ->
  is_marker (hd "" post) = false ->
  is_marker (hd "" (rows ++ post)) = false.
Proof.
  intros Hr Hp. destruct rows as [|r rows]; [exact Hp|].
  cbn [forallb] in Hr. apply andb_prop in Hr.
  apply row_not_marker, Hr.
Qed.

Lemma nth_before_last (l rest : list string) :
  l <> [] -> nth (length l - 1) (l ++ rest) "" = last l "".
Proof.
  induction l as [|x l IH]; intros H; [congruence|].
  destruct l as [|y l]; [reflexivity|].
  replace (length (x :: y :: l) - 1) with (S (length (y :: l) - 1))
    by (simpl; lia).
  change (last (x :: y :: l) "") with (last (y :: l) "").
  rewrite <- IH by discriminate. reflexivity.
Qed.

(** The rows after the header are visited again and dropped by the
    previous-line guard of the table rule. *)
Lemma rows_dropped (rows : list string) :
  forall before st,
    ready opts st ->
    forallb is_row rows = true ->
    before <> [] -> is_row (last before "") = true ->
    is_marker (hd "" post) = false ->
    forEach_from (step opts (before ++ rows ++ post)) rows (length before) st
    = st.
Proof.
  induction rows as [|r rows IH]; intros before st Hst Hr Hne Hlast Hp;
    [reflexivity|].
  cbn [forallb] in Hr. apply andb_prop in Hr. destruct Hr as (Hr1 & Hr2).
  cbn [forEach_from].
  rewrite step_row; try assumption.
  - rewrite nth_before_last, Hlast by exact Hne.
    replace (Nat.ltb 0 (length before)) with true
      by (symmetry; apply Nat.ltb_lt; destruct before; [congruence | simpl; lia]).
    cbn [andb].
    specialize (IH (before ++ [r])%list st Hst Hr2).
    rewrite length_app, Nat.add_1_r, <- app_assoc in IH.
    apply IH.
    + intros E. apply app_eq_nil in E. destruct E; discriminate.
    + rewrite last_last. exact Hr1.
    + exact Hp.
  - apply is_term_no_marker. rewrite nth_middle_plus.
    cbn [app nth]. rewrite <- hd_nth_0.
    apply (next_not_marker rows Hr2 Hp).
Qed.

Lemma table_segment (header : string) (rows : list string) (st : state) :
  ready opts st ->
  forallb is_row (header :: rows) = true ->
  test align_re (trim header) = false ->
  is_row (last pre "") = false ->
  is_marker (hd "" post) = false ->
  forEach_from (step opts (pre ++ (header :: rows) ++ post)) (header :: rows)
    (length pre) st
  = push (build_table opts (pre ++ (header :: rows) ++ post) header
            (length pre)) st.
Proof.
  intros Hst Hr Ha Hlast Hp.
  cbn [forallb] in Hr. apply andb_prop in Hr. destruct Hr as (Hr1 & Hr2).
  cbn [forEach_from].
  rewrite step_row; try assumption.
  - replace (Nat.ltb 0 (length pre)
             && is_row (nth (length pre - 1)
                          (pre ++ (header :: rows) ++ post) "")) with false.
    2:{ destruct pre as [|x l] eqn:E; [reflexivity|]. rewrite <- E in *.
        rewrite nth_before_last, Hlast by (rewrite E; discriminate).
        rewrite andb_false_r. reflexivity. }
    rewrite Ha. cbn [negb].
    pose proof (rows_dropped rows (pre ++ [header])%list
                  (push (build_table opts (pre ++ (header :: rows) ++ post)
                           header (length pre)) st)) as H.
    rewrite length_app, Nat.add_1_r, <- app_assoc in H.
    apply H; try assumption.
    + intros E. apply app_eq_nil in E. destruct E; discriminate.
    + rewrite last_last. exact Hr1.
  - apply is_term_no_marker. rewrite nth_middle_plus.
    cbn [app nth]. rewrite <- hd_nth_0.
    apply (next_not_marker rows Hr2 Hp).
Qed.

Lemma deflist_segment (term : string) (defs : list string) (st : state) :
  ready opts st ->
  is_term (pre ++ (term :: defs) ++ post) term (length pre) = true ->
  forallb is_marker defs = true ->
  is_marker (hd "" post) = false ->
  forEach_from (step opts (pre ++ (term :: defs) ++ post)) (term :: defs)
    (length pre) st
  = push (dl_node opts (length pre) (trim term)
            (map (fun d => trim (slice1 (trim d))) defs)) st.
Proof.
  intros (Hs & Hg & Hc) Ht Hd Hp.
  cbn [forEach_from]. rewrite step_term by assumption.
  replace (skipn (length pre + 1) (pre ++ (term :: defs) ++ post))
    with (defs ++ post)%list by (symmetry; apply skipn_middle).
  rewrite collect_markers by assumption.
  rewrite skip_all by (simpl; rewrite length_map; reflexivity).
  destruct st; simpl in *; subst; reflexivity.
Qed.

Lemma code_segment (o : string) (body : list string) (c : string)
    (st : state) :
  let lines := (pre ++ (o :: body ++ [c]) ++ post)%list in
  ready opts st ->
  test fence_re (trim o) = true ->
  is_term lines o (length pre) = false ->
  (forall j b, nth_error body j = Some b ->
               is_buffered lines b (length pre + 1 + j) = true) ->
  test fence_re (trim c) = true ->
  is_term lines c (length pre + 1 + length body) = false ->
  forEach_from (step opts lines) (o :: body ++ [c]) (length pre) st
  = set_code false None []
      (push (pre_node opts (length pre + 1 + length body) (fence_lang o) body)
         st).
Proof.
  intros lines (Hs & Hg & Hc) Ho Hto Hb Hcl Htc.
  cbn [forEach_from]. rewrite forEach_from_app.
  rewrite (step_fence opts lines st o) by assumption.
  rewrite Hc. cbn [negb].
  rewrite (body_buffered opts lines body);
    [ | exact Hs | exact Hg | reflexivity
      | intros j b Hj;
        replace (S (length pre) + j) with (length pre + 1 + j) by lia;
        apply Hb, Hj ].
  cbn [forEach_from].
  replace (S (length pre) + length body) with (length pre + 1 + length body)
    by lia.
  rewrite step_fence; try assumption.
  destruct st; simpl in *; subst; reflexivity.
Qed.

End Segments.

(** C2, as amended.  A multi-line construct met in a ready state (nothing
    to skip, ceiling not exceeded, no fence open) adds exactly one node
    over all the lines it occupies and leaves the loop ready again: a
    definition list at its term line, its marker lines being skipped; a
    code block at its closing fence, the buffered lines adding nothing; a
    table at its header row, the rows after it being visited again and
    dropped by the previous-line guard of the table rule. *)
Theorem C2_one_node_per_construct (opts : ParseOptions)
    (pre post seg : list string) (n : node) (st : state) :
  ready opts st ->
  construct opts pre post seg n ->
  let st' :=
    forEach_from (step opts (pre ++ seg ++ post)) seg (length pre) st in
  html st' = (html st ++ [n])%list
  /\ ready opts st'
  /\ nestingLevel st' = nestingLevel st.
Proof.
  intros Hst Hc.
  destruct Hc as [term defs Ht Hd Hp | o body c lines Ho Hto Hb Hcl Htc
                 | header rows Hr Ha Hl Hp]; cbv zeta.
  - rewrite deflist_segment by assumption.
    split; [reflexivity | split; [exact Hst | reflexivity]].
  - rewrite code_segment by assumption.
    split; [reflexivity | split; [| reflexivity]].
    destruct Hst as (Hs & Hg & _). repeat split; assumption.
  - rewrite table_segment by assumption.
    split; [reflexivity | split; [exact Hst | reflexivity]].
Qed.

(** C2, the claim as stated.  The body row of this table is consumed by the
    table node and then visited again: followed by a definition marker, it
    is classified a second time and gives a definition list whose term is
    the row. *)
Lemma C2_counterexample :
  let out :=
    parse default_options
      ("| H1 | H2 |" ++ LF ++ "| a | b |" ++ LF ++ ": def") in
  map tag_of out = ["table"; "dl"]
  /\ length (table_body_rows (nth 0 out NUndef)) = 1
  /\ nth 1 out NUndef = dl_node default_options 1 "| a | b |" ["def"].
Proof. repeat split; vm_compute; reflexivity. Qed.

Lemma C2_one_node_per_construct_witness :
  let o := default_options in
  let table := ["| H |"; "|---|"; "| a |"; "| b |"] in
  let dl := ["Term"; ": one"; ": two"] in
  let code := ["```js"; "let x;"; "```"] in
  html (forEach_from (step o (["intro"] ++ table ++ ["end"])) table 1 init)
  = [build_table o (["intro"] ++ table ++ ["end"]) "| H |" 1]
  /\ html (forEach_from (step o ([] ++ dl ++ [])) dl 0 init)
     = [dl_node o 0 "Term" ["one"; "two"]]
  /\ html (forEach_from (step o ([] ++ code ++ ["end"])) code 0 init)
     = [pre_node o 2 (Some "js") ["let x;"]].
Proof.
  intros o table dl code.
  assert (Hready : ready o init) by (repeat split).
  split; [| split].
  - apply (C2_one_node_per_construct o ["intro"] ["end"] table _ init Hready).
    apply (construct_table o ["intro"] ["end"] "| H |"
             ["|---|"; "| a |"; "| b |"]); vm_compute; reflexivity.
  - apply (C2_one_node_per_construct o [] [] dl _ init Hready).
    apply (construct_deflist o [] [] "Term" [": one"; ": two"]);
      vm_compute; reflexivity.
  - apply (C2_one_node_per_construct o [] ["end"] code _ init Hready).
    apply (construct_code o [] ["end"] "```js" ["let x;"] "```");
      try (vm_compute; reflexivity).
    intros j b Hj. destruct j as [|j].
    + injection Hj as <-. vm_compute. reflexivity.
    + destruct j; discriminate Hj.
Defined.

(* ------------------------------------------------------------------ *)
(** ** Further properties of the scanner *)

Section Output.

Variable opts : ParseOptions.
Variable lines : list string.

(** Every branch of the callback leaves the nodes emitted so far in place
    and appends at most one node. *)
Lemma step_appends st line index :
  exists extra,
    html (step opts lines st line index) = (html st ++ extra)%list
    /\ length extra <= 1.
Proof.
  assert (H0 : exists extra : list node,
             html st = (html st ++ extra)%list /\ length extra <= 1).
  { exists []. rewrite app_nil_r. split; [reflexivity | simpl; lia]. }
  assert (H1 : forall n, exists extra : list node,
             (html st ++ [n])%list = (html st ++ extra)%list
             /\ length extra <= 1).
  { intros n. exists [n]. split; [reflexivity | simpl; lia]. }
  unfold step.
  destruct (skipLines st); [| exact H0].
  destruct (Z.ltb (maxNestingLevel opts) (Z.of_nat (nestingLevel st)));
    [apply H1|].
  destruct (is_term lines line index); [apply H1|].
  repeat match goal with
         | |- context [if ?b then _ else _] =>
             match b with
             | test _ _ => destruct b
             | inCodeBlock _ => destruct b
             | negb _ => destruct b
             | andb _ _ => destruct b
             end
         | |- context [match exec ?r ?s with _ => _ end] =>
             destruct (exec r s)
         end;
    first [exact H0 | apply H1].
Qed.

Lemma forEach_appends (l : list string) :
  forall i st,
    exists extra,
      html (forEach_from (step opts lines) l i st) = (html st ++ extra)%list
      /\ length extra <= length l.
Proof.
  induction l as [|x l IH]; intros i st; simpl.
  - exists []. rewrite app_nil_r. split; [reflexivity | simpl; lia].
  - destruct (step_appends st x i) as (e1 & E1 & L1).
    destruct (IH (S i) (step opts lines st x i)) as (e2 & E2 & L2).
    exists (e1 ++ e2)%list. rewrite E2, E1, app_assoc, length_app.
    split; [reflexivity | lia].
Qed.

End Output.

(** The output only grows, by at most one node per line: the nodes present
    after [k] lines are a prefix of those present after [j >= k] lines, with
    at most [j - k] nodes added, and the result has no more nodes than the
    input has lines. *)
Theorem parse_appends_at_most_one_node_per_line (opts : ParseOptions)
    (markdown : string) (k j : nat) :
  let lines := split newline_re (trim markdown) in
  k <= j <= length lines ->
  (exists extra,
      html (run opts lines j) = (html (run opts lines k) ++ extra)%list
      /\ length extra <= j - k)
  /\ length (parse opts markdown) <= length lines.
Proof.
  intros lines H. split.
  - rewrite (run_split opts lines k ltac:(lia) j H).
    destruct (forEach_appends opts lines (firstn (j - k) (skipn k lines)) k
                (run opts lines k)) as (e & E & L).
    exists e. split; [exact E|].
    rewrite length_firstn in L. lia.
  - unfold parse. fold lines. rewrite run_all.
    destruct (forEach_appends opts lines lines 0 init) as (e & E & L).
    unfold run. rewrite firstn_all, E. simpl. exact L.
Qed.

Lemma parse_appends_at_most_one_node_per_line_witness :
  let lines := split newline_re (trim seven_levels) in
  (exists extra,
      html (run default_options lines 5)
      = (html (run default_options lines 2) ++ extra)%list
      /\ length extra <= 5 - 2)
  /\ length (parse default_options seven_levels) <= length lines.
Proof.
  intros lines.
  apply (parse_appends_at_most_one_node_per_line default_options
           seven_levels 2 5).
  vm_compute. lia.
Defined.

(** A line that is blank after trimming emits no node.  Outside a fence the
    whole state is kept, the nesting level included; inside a fence the raw
    line goes to the buffer. *)
Theorem blank_line_emits_nothing (opts : ParseOptions) (lines : list string)
    (st : state) (line : string) (index : nat) :
  trim line = "" ->
  skipLines st = 0 ->
  within_ceiling opts st ->
  step opts lines st line index
  = (if inCodeBlock st
     then set_code true (codeBlockLang st) (codeBlock st ++ [line]) st
     else st)
  /\ html (step opts lines st line index) = html st
  /\ nestingLevel (step opts lines st line index) = nestingLevel st.
Proof.
  intros Ht Hs Hg.
  assert (E : step opts lines st line index
              = (if inCodeBlock st
                 then set_code true (codeBlockLang st) (codeBlock st ++ [line]) st
                 else st)).
  { unfold step. rewrite Hs, Hg. unfold is_term. rewrite Ht.
    cbn [is_empty negb andb]. rewrite andb_false_r.
    change (test task_re "") with false.
    change (test heading_re "") with false.
    change (test fence_re "") with false.
    change (test quote_re "") with false.
    change (test table_re "") with false.
    change (test image_re "") with false.
    change (test list_re "") with false.
    cbv iota.
    destruct (inCodeBlock st); reflexivity. }
  rewrite E. destruct (inCodeBlock st); repeat split; reflexivity.
Qed.

Lemma blank_line_emits_nothing_witness :
  let st := set_nestingLevel 2 init in
  step default_options ["- a"; "   "; "b"] st "   " 1 = st.
Proof.
  intros st.
  apply (blank_line_emits_nothing default_options ["- a"; "   "; "b"] st
           "   " 1); reflexivity.
Defined.

Section FenceBuffer.

Variable opts : ParseOptions.
Variable lines : list string.

(** Outside a fence the buffer is empty and no language is recorded. *)
Definition buffer_inv (st : state) : Prop :=
  inCodeBlock st = false -> codeBlock st = [] /\ codeBlockLang st = None.

Lemma step_buffer_inv st line index :
  buffer_inv st -> buffer_inv (step opts lines st line index).
Proof.
  unfold buffer_inv, step. intros Hinv.
  destruct (skipLines st); [| exact Hinv].
  destruct (Z.ltb (maxNestingLevel opts) (Z.of_nat (nestingLevel st)));
    [exact Hinv|].
  destruct (is_term lines line index); [exact Hinv|].
  destruct (inCodeBlock st) eqn:Hc;
    repeat match goal with
           | |- context [if ?b then _ else _] =>
               match b with
               | test _ _ => destruct b
               | negb _ => destruct b
               | andb _ _ => destruct b
               end
           | |- context [match exec ?r ?s with _ => _ end] =>
               destruct (exec r s)
           end;
    simpl;
    first [ intros H; discriminate H
          | intros _; split; reflexivity
          | intros _; apply Hinv; reflexivity
          | rewrite Hc; intros H; discriminate H ].
Qed.

Lemma forEach_buffer_inv (l : list string) :
  forall i st,
    buffer_inv st -> buffer_inv (forEach_from (step opts lines) l i st).
Proof.
  induction l as [|x l IH]; intros i st H; simpl; [exact H|].
  apply IH, step_buffer_inv, H.
Qed.

End FenceBuffer.

(** At every point of a call where no fence is open, the fence buffer is
    empty and the recorded language is null: a code block never starts with
    lines or a language left over from an earlier block. *)
Theorem closed_fence_has_empty_buffer (opts : ParseOptions)
    (markdown : string) (k : nat) :
  let lines := split newline_re (trim markdown) in
  inCodeBlock (run opts lines k) = false ->
  codeBlock (run opts lines k) = []
  /\ codeBlockLang (run opts lines k) = None.
Proof.
  intros lines. apply forEach_buffer_inv.
  intros _. split; reflexivity.
Qed.

Lemma closed_fence_has_empty_buffer_witness :
  let markdown := "```js" ++ LF ++ "x" ++ LF ++ "```" ++ LF ++ "y" in
  let lines := split newline_re (trim markdown) in
  codeBlock (run default_options lines 3) = []
  /\ codeBlockLang (run default_options lines 3) = None.
Proof.
  intros markdown lines.
  apply (closed_fence_has_empty_buffer default_options markdown 3).
  vm_compute. reflexivity.
Defined.

(* ------------------------------------------------------------------ *)
(** ** The attribute resolver *)

Lemma obj_get_set_same {V} (k : string) (v : V) (o : list (string * V)) :
  obj_get k (obj_set k v o) = Some v.
Proof.
  induction o as [|[a b] o IH]; simpl.
  - rewrite String.eqb_refl. reflexivity.
  - destruct (String.eqb a k) eqn:E; simpl.
    + rewrite String.eqb_refl. reflexivity.
    + rewrite E. exact IH.
Qed.

Lemma obj_get_snoc {V} (k k1 : string) (v1 : V) (o : list (string * V)) :
  obj_get k (o ++ [(k1, v1)])
  = match obj_get k o with
    | Some v => Some v
    | None => if String.eqb k1 k then Some v1 else None
    end.
Proof.
  induction o as [|[a b] o IH]; simpl; [reflexivity|].
  destruct (String.eqb a k); [reflexivity | exact IH].
Qed.

(** Object spread: a key of the second object takes the value of its last
    binding there, any other key keeps the value of the first object. *)
Lemma obj_get_spread {V} (k : string) (b : list (string * V)) :
  forall a,
    obj_get k (obj_spread a b)
    = match obj_get k (rev b) with
      | Some v => Some v
      | None => obj_get k a
      end.
Proof.
  unfold obj_spread.
  induction b as [|[k1 v1] b IH]; intros a; simpl; [reflexivity|].
  rewrite IH, obj_get_snoc.
  destruct (obj_get k (rev b)); [reflexivity|].
  destruct (String.eqb k1 k) eqn:E.
  - apply String.eqb_eq in E. subst k1. apply obj_get_set_same.
  - apply obj_get_set_other, E.
Qed.

Lemma append_not_empty (a b : string) : a <> "" -> a ++ b <> "".
Proof. destruct a; [congruence | discriminate]. Qed.

Lemma truthy_str_not_empty (s : option string) (v : string) :
  truthy_str s = Some v -> v <> "".
Proof.
  unfold truthy_str. destruct s as [x|]; [| discriminate].
  destruct x; simpl; [discriminate|].
  intros H. injection H as <-. discriminate.
Qed.

Definition style_of (p : props) : css :=
  match obj_get "style" p with Some (VStyle o) => o | _ => [] end.

(** What [getElementProperties] returns, for every element type and every
    additional props:
    - [className] is undefined or a string that is not empty, and with a
      custom class configured it is that class, followed by a space and the
      additional class if there is one;
    - [style] is undefined or an object that is not empty, and each of its
      fields comes from the additional style if that has the field, from the
      custom style otherwise;
    - every other key has the value it has in the additional props. *)
Theorem getElementProperties_normalises (opts : ParseOptions)
    (elementType : ElementType) (additionalProps : props) :
  let r := getElementProperties opts elementType additionalProps in
  let merged := obj_spread (customStyles opts elementType)
                  (style_of additionalProps) in
  (obj_get "className" r = Some VUndef
   \/ exists s, obj_get "className" r = Some (VStr s) /\ s <> "")
  /\ (forall cc, truthy_str (customClasses opts elementType) = Some cc ->
        exists rest, obj_get "className" r = Some (VStr (cc ++ rest)))
  /\ obj_get "style" r
     = Some (match merged with [] => VUndef | _ => VStyle merged end)
  /\ (forall field,
        obj_get field merged
        = match obj_get field (rev (style_of additionalProps)) with
          | Some v => Some v
          | None => obj_get field (customStyles opts elementType)
          end)
  /\ (forall k, String.eqb "style" k = false ->
                String.eqb "className" k = false ->
                obj_get k r = obj_get k additionalProps).
Proof.
  intros r merged. unfold r, getElementProperties.
  fold (style_of additionalProps). fold merged.
  set (add_class := match obj_get "className" additionalProps with
                    | Some (VStr s) => Some s
                    | _ => None
                    end).
  repeat split.
  - rewrite obj_get_set_same.
    destruct (truthy_str (customClasses opts elementType)) as [cc|] eqn:E.
    + right. unfold str_or_undef, truthy_str.
      pose proof (truthy_str_not_empty _ _ E) as Hcc.
      destruct cc as [|c cc]; [congruence|]. simpl.
      eexists. split; [reflexivity | discriminate].
    + unfold str_or_undef.
      destruct (truthy_str add_class) as [v|] eqn:Ea; [right | left; reflexivity].
      exists v. split; [reflexivity | apply (truthy_str_not_empty _ _ Ea)].
  - intros cc Hcc. rewrite obj_get_set_same, Hcc.
    pose proof (truthy_str_not_empty _ _ Hcc) as Hne.
    eexists. unfold str_or_undef, truthy_str.
    destruct cc as [|c cc]; [congruence|]. reflexivity.
  - rewrite obj_get_set_other by reflexivity.
    apply obj_get_set_same.
  - intros field. apply obj_get_spread.
  - intros k Hs Hc.
    rewrite !obj_get_set_other by assumption. reflexivity.
Qed.

Lemma getElementProperties_normalises_witness :
  let o := {| langPrefix := "language-";
              customClasses := fun _ => Some "doc";
              customStyles := fun _ => [("color", "red"); ("margin", "0")];
              linkTarget := T_blank; sanitizeHtml := true;
              maxNestingLevel := 6 |} in
  let add := [("href", VStr "u"); ("style", VStyle [("color", "blue")]);
              ("className", VStr "ext")] in
  (exists rest,
      obj_get "className" (getElementProperties o links add)
      = Some (VStr ("doc" ++ rest)))
  /\ obj_get "href" (getElementProperties o links add) = Some (VStr "u").
Proof.
  intros o add.
  pose proof (getElementProperties_normalises o links add)
    as (_ & Hc & _ & _ & Hk).
  split.
  - apply Hc. reflexivity.
  - rewrite Hk; reflexivity.
Defined.

(* ------------------------------------------------------------------ *)
(** ** The inline formatter on plain text *)

Fixpoint all_chars (p : ascii -> bool) (s : string) : bool :=
  match s with
  | "" => true
  | String a s' => p a && all_chars p s'
  end.

(** The characters that open a substitution rule. *)
Definition is_plain (c : ascii) : bool := negb (mem c "$~^=*_`[").

(** A pattern that can only match at an occurrence of the character [o]. *)
Definition opens_with (o : ascii) (r : regex) : Prop :=
  forall k p s c,
    startsWith s (String o "") = false -> mtch r k (p, s) c = None.

Lemma opens_with_chr (o : ascii) : opens_with o (Chr o).
Proof. intros k p s c H. apply mtch_chr_miss, H. Qed.

Lemma opens_with_seq (o : ascii) (r1 r2 : regex) :
  opens_with o r1 -> opens_with o (Seq r1 r2).
Proof. intros H k p s c Hs. apply (H (mtch r2 k)), Hs. Qed.

Lemma replace_go_no_opener (o : ascii) (r : regex) (f : caps -> string) :
  opens_with o r ->
  forall s p,
    all_chars (fun a => negb (Ascii.eqb o a)) s = true ->
    replace_go r f p s 0 = s.
Proof.
  intros Hr s. induction s as [|a s IH]; intros p Hs.
  - cbn [replace_go]. rewrite Hr by reflexivity. reflexivity.
  - cbn [all_chars] in Hs. apply andb_prop in Hs. destruct Hs as (Ha & Hs).
    cbn [replace_go]. rewrite Hr.
    + rewrite IH by exact Hs. reflexivity.
    + cbn [startsWith]. apply negb_true_iff in Ha. rewrite Ha. reflexivity.
Qed.

Lemma all_chars_weaken (p q : ascii -> bool) (s : string) :
  (forall a, p a = true -> q a = true) ->
  all_chars p s = true -> all_chars q s = true.
Proof.
  intros H. induction s as [|a s IH]; simpl; [reflexivity|].
  intros Hs. apply andb_prop in Hs. destruct Hs as (Ha & Hs).
  rewrite (H a Ha), (IH Hs). reflexivity.
Qed.

Lemma plain_not (o : ascii) (a : ascii) :
  mem o "$~^=*_`[" = true -> is_plain a = true -> negb (Ascii.eqb o a) = true.
Proof.
  unfold is_plain. intros Ho Ha.
  destruct (Ascii.eqb_spec o a) as [<-|]; [| reflexivity].
  rewrite Ho in Ha. discriminate Ha.
Qed.

(** Every substitution rule opens with one of the special characters. *)
Lemma replacements_open (opts : ParseOptions) :
  Forall (fun rr => exists o, mem o "$~^=*_`[" = true /\ opens_with o (fst rr))
         (replacements opts).
Proof.
  unfold replacements, delimited, inline_code_re, link_re.
  repeat (apply Forall_cons || apply Forall_nil);
    cbn [fst cat lit];
    eexists; (split; [| repeat apply opens_with_seq; apply opens_with_chr]);
    reflexivity.
Qed.

(** Text in which none of the characters [$ ~ ^ = * _ ` \[] occurs is
    returned unchanged by the inline formatter, whatever the options. *)
Theorem processInlineFormatting_plain_text (opts : ParseOptions)
    (text : string) :
  all_chars is_plain text = true ->
  processInlineFormatting opts text = text.
Proof.
  intros Hp. unfold processInlineFormatting.
  destruct text as [|a s]; [reflexivity|]. cbn [is_empty].
  generalize (replacements_open opts).
  induction (replacements opts) as [|rr l IH]; intros Hall; [reflexivity|].
  inversion Hall as [|? ? (o & Ho & Hr) Hl]; subst.
  cbn [fold_left]. unfold replace_all at 2.
  rewrite (replace_go_no_opener o (fst rr) (snd rr) Hr).
  - apply IH, Hl.
  - apply (all_chars_weaken is_plain); [| exact Hp].
    intros c Hc. apply (plain_not o c Ho Hc).
Qed.

Lemma processInlineFormatting_plain_text_witness :
  processInlineFormatting default_options "Hello, <world> & co. (1+1)"
  = "Hello, <world> & co. (1+1)".
Proof.
  apply (processInlineFormatting_plain_text default_options). reflexivity.
Defined.

(* ------------------------------------------------------------------ *)
(** ** Indentation, list items and task items *)

(** The length of the longest prefix whose characters satisfy [p], and the
    rest of the string after it. *)
Fixpoint span (p : ascii -> bool) (s : string) : nat :=
  match s with
  | String a s' => if p a then S (span p s') else 0
  | "" => 0
  end.

Fixpoint drop_while (p : ascii -> bool) (s : string) : string :=
  match s with
  | String a s' => if p a then drop_while p s' else s
  | "" => ""
  end.


(** A greedy quantifier over a character class takes the longest run when
    the rest of the pattern accepts what follows it. *)
Lemma mtch_cls_cons (p : ascii -> bool) (k : cont) (pos : nat) (a : ascii)
    (s : string) (c : caps) :
  mtch (Cls p) k (pos, String a s) c
  = if p a then k (S pos, s) c else None.
Proof. reflexivity. Qed.

Lemma rep_class_greedy (p : ascii -> bool) (s : string) :
  forall fuel mn k pos c x,
    String.length s < fuel ->
    mn <= span p s ->
    k (pos + span p s, drop_while p s) c = Some x ->
    rep_loop fuel (mtch (Cls p)) true mn None k (pos, s) c = Some x.
Proof.
  induction s as [|a s IH]; intros fuel mn k pos c x Hf Hmn Hk;
    (destruct fuel as [|fuel]; [simpl in Hf; lia|]);
    cbn [span drop_while] in Hmn, Hk; cbn [rep_loop dec_max].
  - assert (mn = 0) by lia. subst mn. rewrite Nat.add_0_r in Hk.
    cbn [Nat.ltb Nat.leb mtch snd or_else]. exact Hk.
  - rewrite mtch_cls_cons. cbn [fst].
    destruct (p a) eqn:Hp.
    + replace (Nat.eqb (S pos) pos) with false
        by (symmetry; apply Nat.eqb_neq; lia).
      rewrite andb_false_r.
      rewrite (IH fuel (pred mn) k (S pos) c x).
      * destruct (Nat.ltb 0 mn); reflexivity.
      * simpl in Hf. lia.
      * lia.
      * replace (S pos + span p s) with (pos + S (span p s)) by lia. exact Hk.
    + assert (mn = 0) by lia. subst mn. rewrite Nat.add_0_r in Hk.
      cbn [Nat.ltb Nat.leb or_else]. exact Hk.
Qed.

(** The indentation the list and task rules measure is the number of
    leading whitespace characters of the raw line. *)
Lemma indent_of_span (line : string) : indent_of line = span is_space line.
Proof.
  unfold indent_of, indent_re. cbn [cat]. rewrite exec_bol.
  cbn [mtch star snd].
  rewrite (rep_class_greedy is_space line _ 0 accept 0 [] (span is_space line, []));
    [unfold match_length; simpl; apply Nat.sub_0_r | lia | lia | reflexivity].
Qed.






Lemma skipn_string_add (a s : string) (n : nat) :
  skipn_string (String.length a + n) (a ++ s) = skipn_string n s.
Proof. induction a as [|c a IH]; [reflexivity | exact IH]. Qed.



Section TaskLine.

Variables (indent : string) (w mark : ascii) (rest : string).
Hypothesis Hindent : all_chars is_space indent = true.
Hypothesis Hw : is_space w = true.
Hypothesis Hmark : mark = "x"%char \/ mark = " "%char.

Let body : string :=
  String "-" (String w (String "[" (String mark (String "]" rest)))).







End TaskLine.



Lemma trimStart_head (s : string) (b : ascii) (t : string) :
  trimStart s = String b t -> is_space b = false.
Proof.
  induction s as [|a s IH]; cbn [trimStart]; [discriminate|].
  destruct (is_space a) eqn:E; [exact IH|].
  intros H. injection H as <- _. exact E.
Qed.

Lemma trim_head (s : string) (b : ascii) (t : string) :
  trim s = String b t -> is_space b = false.
Proof.
  unfold trim. destruct (trimStart s) as [|a r] eqn:E; [discriminate|].
  cbn [trimEnd].
  destruct (is_space a && is_empty (trimEnd r)); [discriminate|].
  intros H. injection H as <- _. apply (trimStart_head s a r E).
Qed.

Lemma anchored_opens_with (o : ascii) (r : regex) (s : string) :
  opens_with o r ->
  startsWith s (String o "") = false ->
  test (Seq Bol r) s = false.
Proof. intros Hr Hs. rewrite test_bol, Hr by exact Hs. reflexivity. Qed.

Lemma opens_with_marks : opens_with "#" (Rep true 1 (Some 6) (Chr "#")).
Proof.
  intros k p s c Hs. cbn [mtch rep_loop Nat.ltb Nat.leb].
  apply mtch_chr_miss, Hs.
Qed.

Lemma marker_not_opener (b : ascii) :
  mem b "-*+" || is_digit b = true -> mem b "#`>|" = false.
Proof.
  destruct b as [b0 b1 b2 b3 b4 b5 b6 b7].
  destruct b0, b1, b2, b3, b4, b5, b6, b7; intros H;
    first [reflexivity | discriminate H].
Qed.

Lemma list_first_char (b : ascii) (t : string) :
  is_space b = false ->
  test list_re (String b t) = true ->
  mem b "-*+" || is_digit b = true.
Proof.
  intros Hb. anchored list_re.
  destruct (mem b "-*+") eqn:Hm; [reflexivity|].
  destruct (is_digit b) eqn:Hd; [reflexivity|].
  cbn [mtch star plus rep_loop snd fst dec_max Nat.ltb Nat.leb Nat.add
       String.length ws one_of digit].
  rewrite Hb, Hm, Hd. cbn [or_else]. discriminate.
Qed.

(** A trimmed line on which the list pattern matches is matched by none of
    the heading, fence, blockquote and table patterns. *)
Lemma list_line_rules (line : string) :
  test list_re (trim line) = true ->
  test heading_re (trim line) = false
  /\ test fence_re (trim line) = false
  /\ test quote_re (trim line) = false
  /\ test table_re (trim line) = false.
Proof.
  intros H. destruct (trim line) as [|b t] eqn:E; [discriminate H|].
  pose proof (marker_not_opener b
                (list_first_char b t (trim_head line b t E) H)) as Hn.
  cbn [mem] in Hn.
  repeat (apply orb_false_elim in Hn; destruct Hn as (? & Hn)).
  repeat split.
  - unfold heading_re. cbn [cat].
    apply (anchored_opens_with "#").
    + apply opens_with_seq, opens_with_marks.
    + cbn [startsWith]. rewrite H0. reflexivity.
  - unfold fence_re. cbn [cat lit].
    apply (anchored_opens_with "`").
    + repeat apply opens_with_seq. apply opens_with_chr.
    + cbn [startsWith]. rewrite H1. reflexivity.
  - unfold quote_re. cbn [cat].
    apply (anchored_opens_with ">").
    + repeat apply opens_with_seq. apply opens_with_chr.
    + cbn [startsWith]. rewrite H2. reflexivity.
  - unfold table_re. cbn [cat].
    apply (anchored_opens_with "|").
    + repeat apply opens_with_seq. apply opens_with_chr.
    + cbn [startsWith]. rewrite H3. reflexivity.
Qed.

(** A line on which the list pattern matches becomes a list item unless an
    earlier rule takes it: with nothing to skip, the ceiling respected and
    no fence open, a line that is no definition term, no task item and
    holds no image token adds exactly one list node, ordered when it opens
    with digits and a dot.  The nesting level becomes half the number of
    leading whitespace characters of the raw line, rounded down; the node's
    left margin is 20px per level and replaces any style configured for
    lists.  If that level is over the ceiling every later line gives an
    error node. *)
Theorem list_item_line (opts : ParseOptions) (lines : list string)
    (st : state) (line : string) (index : nat) :
  ready opts st ->
  is_term lines line index = false ->
  test task_re (trim line) = false ->
  test image_re (trim line) = false ->
  test list_re (trim line) = true ->
  let level := Nat.div (span is_space line) 2 in
  let st' := step opts lines st line index in
  st' = push (list_node opts index line level) (set_nestingLevel level st)
  /\ tag_of (list_node opts index line level)
     = (if test ordered_re line then "ol" else "ul")
  /\ match list_node opts index line level with
     | NElem _ _ p _ =>
         obj_get "style" p
         = Some (VStyle [("marginLeft", of_nat (level * 20) ++ "px")])
     | _ => False
     end
  /\ ((maxNestingLevel opts < Z.of_nat level)%Z ->
      forall (later : list string) (i : nat),
        forEach_from (step opts lines) later i st'
        = push_all (map error_node (seq i (length later))) st').
Proof.
  intros (Hs & Hg & Hc) Ht Htask Himg Hlist level st'.
  assert (E : st' = push (list_node opts index line level)
                      (set_nestingLevel level st)).
  { unfold st', step. rewrite Hs, Hg, Ht, Htask.
    destruct (list_line_rules line Hlist) as (-> & -> & -> & ->).
    rewrite Hc, Himg, Hlist, indent_of_span. reflexivity. }
  split; [exact E | split; [reflexivity | split]].
  - unfold list_node. apply obj_get_set_same.
  - intros Hover later i. apply forEach_over_ceiling.
    + rewrite E. exact Hs.
    + rewrite E. exact Hover.
Qed.

Lemma list_item_line_witness :
  let o := with_maxNestingLevel 1 default_options in
  let line := "      2. deep" in
  let lines := [line; "after"; ""] in
  let st' := step o lines init line 0 in
  st' = push (list_node o 0 line 3) (set_nestingLevel 3 init)
  /\ tag_of (list_node o 0 line 3) = "ol"
  /\ forEach_from (step o lines) ["after"; ""] 1 st'
     = push_all [error_node 1; error_node 2] st'.
Proof.
  intros o line lines st'.
  assert (Hr : ready o init) by (repeat split).
  pose proof (list_item_line o lines init line 0 Hr eq_refl eq_refl eq_refl
                eq_refl) as (A & B & _ & D).
  split; [exact A | split; [exact B |]].
  apply (D eq_refl ["after"; ""] 1).
Defined.

(* ------------------------------------------------------------------ *)
(** ** Table cells *)

Fixpoint count_char (c : ascii) (s : string) : nat :=
  match s with
  | "" => 0
  | String a s' => (if Ascii.eqb a c then 1 else 0) + count_char c s'
  end.

Lemma length_split_char (sep : ascii) (s : string) :
  length (split_char sep s) = S (count_char sep s).
Proof.
  induction s as [|a s IH]; [reflexivity|].
  cbn [split_char count_char].
  destruct (Ascii.eqb a sep); cbn [length Nat.add] in *.
  - rewrite IH. reflexivity.
  - destruct (split_char sep s); [discriminate IH | exact IH].
Qed.

Lemma length_removelast' {A} (l : list A) :
  length (removelast l) = length l - 1.
Proof.
  induction l as [|x l IH]; [reflexivity|].
  destruct l as [|y l]; [reflexivity|].
  change (removelast (x :: y :: l)) with (x :: removelast (y :: l)).
  cbn [length] in *. rewrite IH. lia.
Qed.

Lemma length_row_cells (row : string) :
  length (row_cells row) = count_char "|" row - 1.
Proof.
  unfold row_cells, slice_1_m1.
  rewrite length_removelast'.
  pose proof (length_split_char "|" row) as H.
  destruct (split_char "|" row); cbn [tl length] in *; lia.
Qed.

Lemma mapi_const_index {A B} (h : A -> B) (l : list A) :
  forall n,
    map (fun p : nat * A => h (snd p)) (combine (seq n (length l)) l)
    = map h l.
Proof.
  induction l as [|x l IH]; intros n; [reflexivity|].
  cbn [length seq combine map snd]. rewrite IH. reflexivity.
Qed.

Lemma map_mapi {A B C} (g : B -> C) (f : nat -> A -> B) (h : A -> C)
    (l : list A) :
  (forall i x, g (f i x) = h x) -> map g (mapi f l) = map h l.
Proof.
  intros H. unfold mapi. rewrite map_map.
  rewrite <- (mapi_const_index h l 0).
  apply map_ext. intros [i x]. apply H.
Qed.

Lemma length_mapi {A B} (f : nat -> A -> B) (l : list A) :
  length (mapi f l) = length l.
Proof.
  unfold mapi. rewrite length_map, length_combine, length_seq.
  apply Nat.min_id.
Qed.

(** The rows the table rule collects after the header (and after the
    alignment row when there is one). *)
Definition table_body (lines : list string) (index : nat) : list string :=
  let has_align :=
    Nat.ltb (index + 1) (length lines)
    && test align_re (trim (nth (index + 1) lines "")) in
  collect_rows (skipn ((if has_align then index + 1 else index) + 1) lines).

Lemma collect_rows_not_align (l : list string) :
  Forall (fun row => test table_re row = true /\ test align_re row = false)
         (collect_rows l).
Proof.
  induction l as [|x l IH]; cbn [collect_rows]; [constructor|].
  destruct (test table_re (trim x)) eqn:E1; [| constructor].
  destruct (test align_re (trim x)) eqn:E2; [constructor|].
  cbn [andb negb]. constructor; [split; assumption | exact IH].
Qed.

(** The shape of the table node.  The header has one cell for each piece
    of the trimmed header line between two bars, that is one less than the
    line has bars, and a cell shows its piece trimmed and formatted.  The
    body has one row for each collected line, each with its own number of
    cells (one less than it has bars): rows are neither padded nor cut to
    the header.  No body row is an alignment row. *)
Theorem table_cells (opts : ParseOptions) (lines : list string)
    (line : string) (index : nat) :
  let t := build_table opts lines line index in
  length (table_header_cells t) = count_char "|" (trim line) - 1
  /\ map children_of (table_header_cells t)
     = map (fun col => [NText (processInlineFormatting opts (trim col))])
           (row_cells (trim line))
  /\ map (fun tr => match children_of tr with
                    | NArr tds :: _ => length tds
                    | _ => 0
                    end) (table_body_rows t)
     = map (fun row => count_char "|" row - 1) (table_body lines index)
  /\ Forall (fun row => test table_re row = true
                        /\ test align_re row = false)
            (table_body lines index).
Proof.
  intros t. unfold t, build_table, table_node.
  cbn [table_header_cells table_body_rows children_of hd tl].
  fold (table_body lines index).
  split; [| split; [| split]].
  - rewrite length_mapi, length_map. apply length_row_cells.
  - rewrite (map_mapi children_of _
               (fun col => [NText (processInlineFormatting opts col)]))
      by reflexivity.
    rewrite map_map. reflexivity.
  - apply map_mapi. intros i row. cbn [children_of].
    rewrite length_mapi. apply length_row_cells.
  - apply collect_rows_not_align.
Qed.

(* ------------------------------------------------------------------ *)
(** ** The escaping helper

    [sanitize] is the helper of the earlier revision of the parser, where
    the code-block rule applies it to the buffered text; the current
    revision keeps it as a comment. *)

(** [sanitize(text)]: five global replacements, in the order of the
    source. *)
Definition sanitize (opts : ParseOptions) (text : string) : string :=
  if negb (sanitizeHtml opts) then text
  else
    replace_all (Chr "'") (fun _ => "&#039;")
      (replace_all (Chr "034") (fun _ => "&quot;")
         (replace_all (Chr ">") (fun _ => "&gt;")
            (replace_all (Chr "<") (fun _ => "&lt;")
               (replace_all (Chr "&") (fun _ => "&amp;") text)))).

(** What one character becomes. *)
Definition escape_char (a : ascii) : string :=
  if Ascii.eqb a "&" then "&amp;"
  else if Ascii.eqb a "<" then "&lt;"
  else if Ascii.eqb a ">" then "&gt;"
  else if Ascii.eqb a "034" then "&quot;"
  else if Ascii.eqb a "'" then "&#039;"
  else String a "".

Fixpoint escape_all (s : string) : string :=
  match s with
  | "" => ""
  | String a s' => escape_char a ++ escape_all s'
  end.

Fixpoint subst_char (c : ascii) (rep : string) (s : string) : string :=
  match s with
  | "" => ""
  | String a s' =>
      (if Ascii.eqb c a then rep else String a "") ++ subst_char c rep s'
  end.

Lemma replace_go_chr (c : ascii) (rep : string) (s : string) :
  forall pos, replace_go (Chr c) (fun _ => rep) pos s 0 = subst_char c rep s.
Proof.
  induction s as [|a s IH]; intros pos; [reflexivity|].
  cbn [replace_go mtch snd fst subst_char].
  destruct (Ascii.eqb c a); unfold accept; cbn [fst].
  - replace (Nat.eqb (S pos) pos) with false
      by (symmetry; apply Nat.eqb_neq; lia).
    replace (S pos - pos - 1) with 0 by lia.
    rewrite IH. reflexivity.
  - rewrite IH. reflexivity.
Qed.

Lemma replace_all_chr (c : ascii) (rep : string) (s : string) :
  replace_all (Chr c) (fun _ => rep) s = subst_char c rep s.
Proof. apply replace_go_chr. Qed.

Lemma append_assoc' (a b c : string) : (a ++ b) ++ c = a ++ (b ++ c).
Proof. induction a as [|x a IH]; [reflexivity | simpl; rewrite IH; reflexivity]. Qed.

Lemma subst_char_app (c : ascii) (rep : string) (a b : string) :
  subst_char c rep (a ++ b) = subst_char c rep a ++ subst_char c rep b.
Proof.
  induction a as [|x a IH]; [reflexivity|].
  cbn [append subst_char]. rewrite IH, append_assoc'. reflexivity.
Qed.

Lemma all_chars_app (p : ascii -> bool) (a b : string) :
  all_chars p (a ++ b) = all_chars p a && all_chars p b.
Proof.
  induction a as [|x a IH]; [reflexivity|].
  cbn [append all_chars]. rewrite IH, andb_assoc. reflexivity.
Qed.

(** The characters that can open or close markup. *)
Definition is_markup_char (c : ascii) : bool := mem c ("<>'" ++ quote).

Lemma escape_char_passes (a : ascii) :
  subst_char "'" "&#039;"
    (subst_char "034" "&quot;"
       (subst_char ">" "&gt;"
          (subst_char "<" "&lt;" (subst_char "&" "&amp;" (String a "")))))
  = escape_char a
  /\ all_chars (fun c => negb (is_markup_char c)) (escape_char a) = true.
Proof.
  destruct a as [b0 b1 b2 b3 b4 b5 b6 b7].
  destruct b0, b1, b2, b3, b4, b5, b6, b7; split; reflexivity.
Qed.

(** With the option off [sanitize] returns its argument.  With the option
    on, the five passes together escape each character of the text once, the
    ampersands written by one pass being left alone by the passes after it,
    and the result holds no [<], [>], apostrophe or double quote. *)
Theorem sanitize_escapes_each_character (opts : ParseOptions) (text : string) :
  sanitize (with_sanitizeHtml false opts) text = text
  /\ sanitize (with_sanitizeHtml true opts) text = escape_all text
  /\ all_chars (fun c => negb (is_markup_char c))
       (sanitize (with_sanitizeHtml true opts) text) = true.
Proof.
  split; [reflexivity|].
  assert (E : sanitize (with_sanitizeHtml true opts) text = escape_all text).
  { unfold sanitize. cbn [with_sanitizeHtml sanitizeHtml negb].
    rewrite !replace_all_chr.
    induction text as [|a s IH]; [reflexivity|].
    change (String a s) with (String a "" ++ s).
    rewrite !subst_char_app, IH.
    rewrite (proj1 (escape_char_passes a)). reflexivity. }
  split; [exact E|]. rewrite E. clear E.
  induction text as [|a s IH]; [reflexivity|].
  cbn [escape_all]. rewrite all_chars_app, IH.
  rewrite (proj2 (escape_char_passes a)). reflexivity.
Qed.

(* ------------------------------------------------------------------ *)
(** ** Line endings *)

Definition CRc : ascii := "013"%char.
Definition LFc : ascii := "010"%char.

(** The same text with every line feed written as carriage return, line
    feed. *)
Fixpoint lf_to_crlf (s : string) : string :=
  match s with
  | "" => ""
  | String a s' =>
      if Ascii.eqb a LFc then String CRc (String LFc (lf_to_crlf s'))
      else String a (lf_to_crlf s')
  end.

Definition no_cr (s : string) : bool :=
  all_chars (fun a => negb (Ascii.eqb a CRc)) s.

Definition cons_line (cur : string -> string) (l : list string)
    : list string :=
  match l with
  | x :: xs => cur x :: xs
  | [] => []
  end.

Lemma newline_at (pos : nat) (a : ascii) (s : string) :
  Ascii.eqb a CRc = false ->
  mtch newline_re accept (pos, String a s) []
  = if Ascii.eqb a LFc then Some (S pos, []) else None.
Proof.
  intros Ha. unfold CRc in Ha. unfold LFc, newline_re.
  cbn [mtch snd fst or_else].
  rewrite (Ascii.eqb_sym "013" a), Ha. cbn [or_else].
  rewrite (Ascii.eqb_sym "010" a).
  destruct (Ascii.eqb a "010"); reflexivity.
Qed.

Lemma split_go_lf (s : string) :
  forall pos cur,
    no_cr s = true ->
    split_go newline_re pos s 0 cur = cons_line cur (split_char LFc s).
Proof.
  induction s as [|a s IH]; intros pos cur H; [reflexivity|].
  unfold no_cr in H. cbn [all_chars] in H.
  apply andb_prop in H. destruct H as (Ha & Hs).
  apply negb_true_iff in Ha.
  cbn [split_go split_char]. rewrite newline_at by exact Ha.
  destruct (Ascii.eqb a LFc).
  - replace (Nat.eqb (S pos) pos) with false
      by (symmetry; apply Nat.eqb_neq; lia).
    replace (S pos - pos - 1) with 0 by lia.
    rewrite IH by exact Hs.
    destruct (split_char LFc s); reflexivity.
  - rewrite IH by exact Hs.
    destruct (split_char LFc s) eqn:E; [| reflexivity].
    pose proof (length_split_char LFc s) as L. rewrite E in L. discriminate L.
Qed.

Lemma split_go_crlf_pair (pos : nat) (s : string) (cur : string -> string) :
  split_go newline_re pos (String CRc (String LFc s)) 0 cur
  = cur "" :: split_go newline_re (S (S pos)) s 0 (fun t => t).
Proof.
  change (split_go newline_re pos (String CRc (String LFc s)) 0 cur)
    with (if Nat.eqb (S (S pos)) pos
          then split_go newline_re (S pos) (String LFc s) 0
                 (fun t => cur (String CRc t))
          else cur "" :: split_go newline_re (S pos) (String LFc s)
                           (S (S pos) - pos - 1) (fun t => t)).
  replace (Nat.eqb (S (S pos)) pos) with false
    by (symmetry; apply Nat.eqb_neq; lia).
  replace (S (S pos) - pos - 1) with 1 by lia.
  reflexivity.
Qed.

Lemma split_go_crlf (s : string) :
  forall pos cur,
    no_cr s = true ->
    split_go newline_re pos (lf_to_crlf s) 0 cur
    = cons_line cur (split_char LFc s).
Proof.
  induction s as [|a s IH]; intros pos cur H; [reflexivity|].
  unfold no_cr in H. cbn [all_chars] in H.
  apply andb_prop in H. destruct H as (Ha & Hs).
  apply negb_true_iff in Ha.
  cbn [lf_to_crlf split_char].
  destruct (Ascii.eqb a LFc) eqn:E.
  - rewrite split_go_crlf_pair, IH by exact Hs.
    destruct (split_char LFc s); reflexivity.
  - cbn [split_go]. rewrite newline_at, E by exact Ha.
    rewrite IH by exact Hs.
    destruct (split_char LFc s) eqn:E'; [| reflexivity].
    pose proof (length_split_char LFc s) as L. rewrite E' in L. discriminate L.
Qed.

Lemma is_empty_lf_to_crlf (s : string) :
  is_empty (lf_to_crlf s) = is_empty s.
Proof.
  destruct s as [|a s]; [reflexivity|].
  cbn [lf_to_crlf]. destruct (Ascii.eqb a LFc); reflexivity.
Qed.

Lemma lf_is_space (a : ascii) : Ascii.eqb a LFc = true -> is_space a = true.
Proof. intros H. apply Ascii.eqb_eq in H. subst a. reflexivity. Qed.

Lemma trimStart_lf_to_crlf (s : string) :
  trimStart (lf_to_crlf s) = lf_to_crlf (trimStart s).
Proof.
  induction s as [|a s IH]; [reflexivity|].
  cbn [lf_to_crlf trimStart].
  destruct (Ascii.eqb a LFc) eqn:E.
  - rewrite (lf_is_space a E). cbn [trimStart].
    change (is_space CRc) with true. change (is_space LFc) with true.
    cbv iota. exact IH.
  - cbn [trimStart]. destruct (is_space a); [exact IH|].
    cbn [lf_to_crlf]. rewrite E. reflexivity.
Qed.

Lemma trimEnd_lf_to_crlf (s : string) :
  trimEnd (lf_to_crlf s) = lf_to_crlf (trimEnd s).
Proof.
  induction s as [|a s IH]; [reflexivity|].
  cbn [lf_to_crlf trimEnd].
  destruct (Ascii.eqb a LFc) eqn:E.
  - rewrite (lf_is_space a E). cbn [trimEnd].
    change (is_space CRc) with true. change (is_space LFc) with true.
    rewrite IH, is_empty_lf_to_crlf.
    destruct (trimEnd s) as [|b t]; [reflexivity|].
    cbn [is_empty andb lf_to_crlf]. rewrite E.
    destruct (Ascii.eqb b LFc); reflexivity.
  - cbn [trimEnd]. rewrite IH, is_empty_lf_to_crlf.
    destruct (is_space a && is_empty (trimEnd s)); [reflexivity|].
    cbn [lf_to_crlf]. rewrite E. reflexivity.
Qed.

Lemma no_cr_trimStart (s : string) : no_cr s = true -> no_cr (trimStart s) = true.
Proof.
  unfold no_cr. induction s as [|a s IH]; [reflexivity|].
  cbn [trimStart]. destruct (is_space a); [| tauto].
  cbn [all_chars]. intros H. apply andb_prop in H. apply IH, H.
Qed.

Lemma no_cr_trimEnd (s : string) : no_cr s = true -> no_cr (trimEnd s) = true.
Proof.
  unfold no_cr. induction s as [|a s IH]; [reflexivity|].
  cbn [trimEnd all_chars]. intros H. apply andb_prop in H.
  destruct H as (Ha & Hs).
  destruct (is_space a && is_empty (trimEnd s)); [reflexivity|].
  cbn [all_chars]. rewrite Ha, (IH Hs). reflexivity.
Qed.

(** A document without carriage returns gives the same lines, and so the
    same nodes, when each of its line feeds is written as carriage return,
    line feed. *)
Theorem parse_crlf_line_endings (opts : ParseOptions) (markdown : string) :
  no_cr markdown = true ->
  split newline_re (trim (lf_to_crlf markdown))
  = split newline_re (trim markdown)
  /\ parse opts (lf_to_crlf markdown) = parse opts markdown.
Proof.
  intros H.
  assert (E : split newline_re (trim (lf_to_crlf markdown))
              = split newline_re (trim markdown)).
  { unfold trim. rewrite trimStart_lf_to_crlf, trimEnd_lf_to_crlf.
    assert (Ht : no_cr (trimEnd (trimStart markdown)) = true)
      by (apply no_cr_trimEnd, no_cr_trimStart, H).
    unfold split. rewrite split_go_crlf, split_go_lf by exact Ht.
    reflexivity. }
  split; [exact E|]. unfold parse. rewrite E. reflexivity.
Qed.

Lemma parse_crlf_line_endings_witness :
  let markdown := "# T" ++ LF ++ LF ++ "- a" ++ LF ++ "text" in
  parse default_options (lf_to_crlf markdown) = parse default_options markdown.
Proof.
  intros markdown.
  apply (parse_crlf_line_endings default_options markdown). reflexivity.
Defined.

(* ------------------------------------------------------------------ *)
(** ** Fenced code blocks *)

Definition is_word (lang : string) : bool :=
  negb (is_empty lang) && all_chars (fun c => negb (is_space c)) lang.

Lemma span_all (p : ascii -> bool) (s : string) :
  all_chars p s = true ->
  span p s = String.length s /\ drop_while p s = "".
Proof.
  induction s as [|a s IH]; [split; reflexivity|].
  cbn [all_chars span drop_while String.length]. intros H.
  apply andb_prop in H. destruct H as (Ha & Hs). rewrite Ha.
  destruct (IH Hs) as (-> & ->). split; reflexivity.
Qed.

Lemma trimEnd_word (s : string) :
  all_chars (fun c => negb (is_space c)) s = true -> trimEnd s = s.
Proof.
  induction s as [|a s IH]; [reflexivity|].
  cbn [all_chars trimEnd]. intros H.
  apply andb_prop in H. destruct H as (Ha & Hs).
  apply negb_true_iff in Ha. rewrite Ha, (IH Hs). reflexivity.
Qed.

Lemma substring_all (s : string) : substring 0 (String.length s) s = s.
Proof.
  induction s as [|a s IH]; [reflexivity|].
  cbn [String.length substring]. rewrite IH. reflexivity.
Qed.

Section FenceLine.

Variable lang : string.
Hypothesis Hlang : is_word lang = true.

Lemma fence_line_trim : trim ("```" ++ lang) = "```" ++ lang.
Proof.
  unfold is_word in Hlang. apply andb_prop in Hlang.
  destruct Hlang as (_ & H).
  cbn [append]. unfold trim. cbn [trimStart].
  change (is_space "`") with false. cbv iota.
  change (trimEnd (String "`" (String "`" (String "`" lang))))
    with (String "`" (String "`" (String "`" (trimEnd lang)))).
  rewrite (trimEnd_word lang H). reflexivity.
Qed.

(** The optional language group takes the whole word when the rest of the
    pattern accepts the end of the line. *)
Lemma fence_word_group (k : cont) (c : caps) (x : nat * caps) :
  k (3 + String.length lang, "") ((1, lang) :: c) = Some x ->
  mtch (opt (Grp 1 (plus non_ws))) k (3, lang) c = Some x.
Proof.
  intros Hk.
  unfold is_word in Hlang. apply andb_prop in Hlang.
  destruct Hlang as (Hne & Hall).
  destruct (span_all _ lang Hall) as (Hspan & Hdrop).
  destruct lang as [|a l] eqn:E; [discriminate Hne|]. rewrite <- E in *.
  assert (Hlen : String.length lang = S (String.length l))
    by (rewrite E; reflexivity).
  unfold opt. cbn [mtch snd].
  rewrite Hlen. cbn [Nat.add rep_loop dec_max Nat.ltb Nat.leb Nat.pred Nat.eqb andb].
  unfold plus, non_ws.
  change (mtch (Rep true 1 None (Cls ?p)) ?kk (3, lang) c)
    with (rep_loop (S (1 + String.length lang)) (mtch (Cls p)) true 1 None
            kk (3, lang) c).
  erewrite rep_class_greedy; [reflexivity | lia | lia |].
  rewrite Hspan, Hdrop. cbn [fst snd].
  replace (Nat.eqb (3 + String.length lang) 3) with false
    by (symmetry; apply Nat.eqb_neq; lia).
  replace (3 + String.length lang - 3) with (String.length lang) by lia.
  rewrite substring_all. exact Hk.
Qed.

Lemma fence_line_test : test fence_re (trim ("```" ++ lang)) = true.
Proof.
  rewrite fence_line_trim. anchored fence_re.
  cbn [append lit mtch snd fst]. cbn [Ascii.eqb Bool.eqb].
  change (mtch (Seq (opt (Grp 1 (plus non_ws))) ?r) accept)
    with (mtch (opt (Grp 1 (plus non_ws))) (mtch r accept)).
  erewrite fence_word_group; reflexivity.
Qed.

Lemma fence_line_lang : fence_lang ("```" ++ lang) = Some lang.
Proof.
  unfold fence_lang. rewrite fence_line_trim.
  unfold fence_lang_re. cbn [cat]. rewrite exec_bol.
  cbn [append lit mtch snd fst]. cbn [Ascii.eqb Bool.eqb].
  erewrite fence_word_group by reflexivity.
  cbn [m_caps group Nat.eqb]. unfold truthy_str.
  unfold is_word in Hlang. apply andb_prop in Hlang.
  destruct Hlang as (Hne & _).
  destruct (is_empty lang); [discriminate Hne | reflexivity].
Qed.

End FenceLine.

(** A fenced block whose opening line is three backticks and a language
    word, met in a ready state: when the lines between the fences all reach
    the buffer, the block adds exactly one [pre] node at its closing fence.
    Its [code] child has the class made of the configured prefix and the
    language word, and its text is the raw body lines joined by line feeds:
    no trimming and no inline formatting is applied to code. *)
Theorem fenced_code_block (opts : ParseOptions) (pre post body : list string)
    (lang c : string) (st : state) :
  is_word lang = true ->
  ready opts st ->
  let o := "```" ++ lang in
  let lines := (pre ++ (o :: body ++ [c]) ++ post)%list in
  is_term lines o (length pre) = false ->
  (forall j b, nth_error body j = Some b ->
               is_buffered lines b (length pre + 1 + j) = true) ->
  test fence_re (trim c) = true ->
  is_term lines c (length pre + 1 + length body) = false ->
  let st' := forEach_from (step opts lines) (o :: body ++ [c]) (length pre) st in
  let n := pre_node opts (length pre + 1 + length body) (Some lang) body in
  html st' = (html st ++ [n])%list
  /\ inCodeBlock st' = false
  /\ children_of n
     = [ NElem "code" None [("className", VStr (langPrefix opts ++ lang))]
           [NText (join LF body)] ].
Proof.
  intros Hlang Hst o lines Hto Hb Hc Htc st' n.
  assert (E : st' = set_code false None [] (push n st)).
  { unfold st', n. rewrite <- (fence_line_lang lang Hlang).
    apply code_segment; try assumption.
    apply fence_line_test, Hlang. }
  rewrite E. split; [reflexivity | split; [reflexivity|]].
  unfold n, pre_node. cbn [children_of]. unfold truthy_str.
  unfold is_word in Hlang. apply andb_prop in Hlang.
  destruct Hlang as (Hne & _).
  destruct (is_empty lang); [discriminate Hne | reflexivity].
Qed.

Lemma fenced_code_block_witness :
  let o := default_options in
  let body := ["  let *x* = 1;"; ""; "x < 2"] in
  let seg := ("```js" :: body ++ ["```"])%list in
  html (forEach_from (step o (["intro"] ++ seg ++ ["end"])) seg 1 init)
  = [pre_node o 5 (Some "js") body]
  /\ children_of (pre_node o 5 (Some "js") body)
     = [ NElem "code" None [("className", VStr "language-js")]
           [NText ("  let *x* = 1;" ++ LF ++ "" ++ LF ++ "x < 2")] ].
Proof.
  intros o body seg.
  assert (Hl : is_word "js" = true) by reflexivity.
  assert (Hr : ready o init) by (repeat split).
  assert (Hb : forall j b, nth_error body j = Some b ->
               is_buffered (["intro"] ++ ("```js" :: body ++ ["```"])
                              ++ ["end"])%list b (1 + 1 + j) = true).
  { intros j b Hj. destruct j as [|[|[|j]]];
      [ injection Hj as <-; reflexivity
      | injection Hj as <-; reflexivity
      | injection Hj as <-; reflexivity
      | destruct j; discriminate Hj ]. }
  pose proof (fenced_code_block o ["intro"] ["end"] body "js" "```" init
                Hl Hr eq_refl Hb eq_refl eq_refl) as (A & _ & C).
  split; [exact A | exact C].
Defined.

(* ------------------------------------------------------------------ *)
(** ** Headings with a custom id *)

(** No character of [s] is one of the characters of [x]. *)
Definition avoids (x : string) (s : string) : bool :=
  all_chars (fun c => negb (mem c x)) s.

Lemma span_prefix (p : ascii -> bool) (a s : string) :
  all_chars p a = true ->
  span p (a ++ s) = String.length a + span p s
  /\ drop_while p (a ++ s) = drop_while p s.
Proof.
  induction a as [|x a IH]; [split; reflexivity|].
  cbn [all_chars append span drop_while String.length]. intros H.
  apply andb_prop in H. destruct H as (Hx & Ha). rewrite Hx.
  destruct (IH Ha) as (-> & ->). split; reflexivity.
Qed.

Lemma substring_prefix (a s : string) :
  substring 0 (String.length a) (a ++ s) = a.
Proof.
  induction a as [|x a IH]; [destruct s; reflexivity|].
  cbn [String.length append substring]. rewrite IH. reflexivity.
Qed.

Lemma exec_from_skip (o : ascii) (r : regex) (a s : string) :
  opens_with o r ->
  avoids (String o "") a = true ->
  forall pos,
    exec_from r pos (a ++ s) = exec_from r (pos + String.length a) s.
Proof.
  intros Hr. induction a as [|x a IH]; intros Ha pos.
  - cbn [append String.length]. rewrite Nat.add_0_r. reflexivity.
  - unfold avoids in Ha. cbn [all_chars mem] in Ha.
    apply andb_prop in Ha. destruct Ha as (Hx & Ha).
    rewrite orb_false_r in Hx. apply negb_true_iff in Hx.
    cbn [append exec_from]. rewrite Hr.
    + rewrite (IH Ha). f_equal. cbn [String.length]. lia.
    + cbn [startsWith]. rewrite Hx. reflexivity.
Qed.

Lemma all_space_trimStart (s : string) :
  all_chars is_space (trimStart s) = all_chars is_space s.
Proof.
  induction s as [|a s IH]; [reflexivity|].
  cbn [trimStart all_chars]. destruct (is_space a) eqn:E; [exact IH|].
  cbn [all_chars]. rewrite E. reflexivity.
Qed.

Lemma trimEnd_empty_all_space (s : string) :
  trimEnd s = "" -> all_chars is_space s = true.
Proof.
  induction s as [|a s IH]; [reflexivity|].
  cbn [trimEnd all_chars].
  destruct (is_space a); cbn [andb]; [| discriminate].
  destruct (trimEnd s); [intros _; apply IH; reflexivity | discriminate].
Qed.

Lemma trim_not_blank (a : string) (c : ascii) (b : string) :
  is_space c = false -> trim (a ++ String c b) <> "".
Proof.
  intros Hc H. unfold trim in H.
  apply trimEnd_empty_all_space in H.
  rewrite all_space_trimStart, all_chars_app in H.
  cbn [all_chars] in H. rewrite Hc, andb_false_r in H. discriminate H.
Qed.

Section HeadingId.

Variables (title id tail : string).
Hypothesis Htitle : avoids "{" title = true.
Hypothesis Hid : avoids "}" id = true.
Hypothesis Hne : is_empty id = false.

Let text : string := title ++ "{#" ++ id ++ "}" ++ tail.

Lemma heading_id_exec :
  exec heading_id_re text
  = Some {| m_start := String.length title;
            m_end := String.length title + (3 + String.length id);
            m_caps := [(1, id)] |}.
Proof.
  unfold exec, text.
  rewrite (exec_from_skip "{" heading_id_re title);
    [ | unfold heading_id_re; cbn [cat];
        repeat apply opens_with_seq; apply opens_with_chr
      | exact Htitle ].
  cbn [Nat.add append].
  destruct (span_prefix (fun c => negb (mem c "}")) id (String "}" tail) Hid)
    as (Hspan & Hdrop).
  change (span (fun c => negb (mem c "}")) (String "}" tail)) with 0 in Hspan.
  change (drop_while (fun c => negb (mem c "}")) (String "}" tail))
    with (String "}" tail) in Hdrop.
  rewrite Nat.add_0_r in Hspan.
  assert (Hlen : 1 <= String.length id)
    by (destruct id; [discriminate Hne | simpl; lia]).
  assert (E : mtch heading_id_re accept
                (String.length title, String "{" (String "#" (id ++ String "}" tail))) []
              = Some (String.length title + (3 + String.length id), [(1, id)])).
  { unfold heading_id_re. cbn [cat mtch snd fst]. cbn [Ascii.eqb Bool.eqb].
    unfold plus, none_of.
    change (mtch (Rep true 1 None (Cls ?p)) ?kk (?n, ?s) ?c)
      with (rep_loop (S (1 + String.length s)) (mtch (Cls p)) true 1 None
              kk (n, s) c).
    erewrite rep_class_greedy; [reflexivity | lia | rewrite Hspan; lia |].
    rewrite Hspan, Hdrop. cbn [mtch snd fst]. cbn [Ascii.eqb Bool.eqb].
    unfold accept. cbn [fst].
    replace (S (S (String.length title)) + String.length id
             - S (S (String.length title))) with (String.length id) by lia.
    rewrite substring_prefix. repeat f_equal. lia. }
  cbn [exec_from]. rewrite E. reflexivity.
Qed.

Lemma heading_id_removed :
  replace_first heading_id_re (fun _ => "") text = title ++ tail.
Proof.
  unfold replace_first. rewrite heading_id_exec.
  cbn [m_start m_end m_caps]. unfold text.
  rewrite substring_prefix, skipn_string_add.
  change (skipn_string (3 + String.length id) ("{#" ++ id ++ "}" ++ tail))
    with (skipn_string (S (String.length id)) (id ++ String "}" tail)).
  replace (S (String.length id)) with (String.length id + 1) by lia.
  rewrite skipn_string_add. reflexivity.
Qed.

End HeadingId.
